(** * tnt-kafka: the consumer bridge between librdkafka and Tarantool fibers

    A shallow embedding of [tnt-kafka/tnt_kafka.c] (the Lua C module
    [tntkafka]) and of the Lua facade built on it ([Consumer.create],
    [Consumer:_poll_msg], [Consumer:close], ...), followed by the
    properties of the consumer that the specification states.

    librdkafka and the fiber scheduler are external: every call into them
    is appended to a log kept in the state, and what librdkafka answers
    is fixed by a stub carried in the state. *)

From Stdlib Require Import ZArith String Ascii List Lia DecimalString.
From stdpp Require Import base list strings gmap.
Import ListNotations.
Open Scope Z_scope.

(** ** Lua numbers

    A Lua number is a double.  The bridge never computes with one: it turns
    a number found in a configuration table into a string ([lua_tostring])
    and pushes a record's 32-bit partition as a number.  Both are taken
    as an interface. *)
Class LuaNumber := {
  lua_Number : Type;
  (* the string [lua_tostring] yields for a number *)
  lua_number2str : lua_Number -> string;
  (* the cast [(double)i] of a 32-bit integer, which is exact *)
  lua_int2number : Z -> lua_Number;
}.

(** ** C strings and buffers *)

(** What C reads at a string pointer: the bytes before the first NUL. *)
Fixpoint c_str (s : string) : string :=
  match s with
  | EmptyString => EmptyString
  | String c r => if Ascii.eqb c zero then EmptyString else String c (c_str r)
  end.

Definition strlen (s : string) : Z := Z.of_nat (String.length (c_str s)).

(** No NUL byte inside: the string is its own C string. *)
Fixpoint nul_free (s : string) : bool :=
  match s with
  | EmptyString => true
  | String c r => negb (Ascii.eqb c zero) && nul_free r
  end.

Definition size_t (z : Z) : Z := z mod 2 ^ 64.
Definition int32_t (z : Z) : Z := (z + 2 ^ 31) mod 2 ^ 32 - 2 ^ 31.

(** The size of a pointer: the module is built for 64-bit hosts. *)
Definition sizeof_pointer : Z := 8.

(** The decimal text [lua_pushfstring] writes for [%d]. *)
Definition decimal (z : Z) : string := NilZero.string_of_int (Z.to_int z).

(** ** librdkafka data *)

Definition rd_kafka_resp_err_t := Z.
Definition RD_KAFKA_RESP_ERR_NO_ERROR : rd_kafka_resp_err_t := 0.

Record rd_kafka_topic_t := { topic_name : string }.

Definition rd_kafka_topic_name (rkt : rd_kafka_topic_t) : string :=
  topic_name rkt.

(** [rd_kafka_message_t].  [payload] and [key] are pointers: [None] is
    NULL, [Some b] the bytes found at the address.  [len] and [key_len]
    are [size_t], [partition] is [int32_t], [offset] is [int64_t]. *)
Record rd_kafka_message_t := {
  rkt : rd_kafka_topic_t;
  partition : Z;
  payload : option string;
  len : Z;
  key : option string;
  key_len : Z;
  offset : Z;
}.

(** An event taken from a queue, with the records it carries. *)
Record rd_kafka_event_t := {
  event_type : Z;
  event_name : string;
  event_messages : list rd_kafka_message_t;
}.

(** The value of the constant in [rdkafka.h]. *)
Definition RD_KAFKA_EVENT_FETCH : Z := 2.

Definition rd_kafka_event_type (ev : rd_kafka_event_t) : Z := event_type ev.
Definition rd_kafka_event_name (ev : rd_kafka_event_t) : string :=
  event_name ev.

(** The first call of [rd_kafka_event_message_next] on an event: its first
    record, NULL when it has none. *)
Definition rd_kafka_event_message_next (ev : rd_kafka_event_t)
  : option rd_kafka_message_t := head (event_messages ev).

(** A subscription list: topic and partition of each element. *)
Definition rd_kafka_topic_partition_list_t := list (string * Z).

(** Calls into librdkafka, as logged.  Handles are numbers. *)
Inductive native_call :=
| Conf_new (conf : nat)
| Topic_conf_new (tconf : nat)
| Conf_set_default_topic_conf (conf tconf : nat)
| Conf_set (conf : nat) (name value : string)
| Kafka_new (conf : nat) (rk : option nat)
| Brokers_add (rk : nat) (brokers : string)
| Queue_get_main (rk q : nat)
| Queue_get_consumer (rk q : nat)
| Topic_partition_list_new (size : Z)
| Topic_partition_list_add (topic : string) (part : Z)
| Subscribe (rk : nat) (topics : rd_kafka_topic_partition_list_t)
| Queue_poll (q : nat) (timeout_ms : Z)
| Event_destroy (ev : rd_kafka_event_t)
| Offset_store (rkt : rd_kafka_topic_t) (part off : Z)
| Queue_destroy (q : nat)
| Kafka_consumer_close (rk : nat)
| Poll (rk : nat) (timeout_ms : Z)
| Topic_partition_list_destroy (topics : rd_kafka_topic_partition_list_t).

(** The calls that hand a new native object to the caller. *)
Definition allocates (c : native_call) : bool :=
  match c with
  | Conf_new _ | Topic_conf_new _ | Kafka_new _ (Some _)
  | Queue_get_main _ _ | Queue_get_consumer _ _
  | Topic_partition_list_new _ => true
  | _ => false
  end.

(** The stub standing for librdkafka: what each fallible call answers. *)
Record librdkafka := {
  (* [None]: RD_KAFKA_CONF_OK; [Some errstr]: the option is rejected *)
  conf_set_reply : string -> string -> option string;
  (* [Some errstr]: rd_kafka_new returns NULL *)
  new_reply : option string;
  (* the number of brokers rd_kafka_brokers_add accepts *)
  brokers_add_reply : string -> Z;
  subscribe_reply : rd_kafka_topic_partition_list_t -> rd_kafka_resp_err_t;
  offset_store_reply : rd_kafka_topic_t -> Z -> Z -> rd_kafka_resp_err_t;
  consumer_close_reply : rd_kafka_resp_err_t;
  rd_kafka_err2str : rd_kafka_resp_err_t -> string;
}.

(** Calls into the fiber scheduler and the logger, as logged. *)
Inductive fiber_function := Fn_poll (self : nat) | Fn_poll_msg (self : nat).

Section Bridge.

Context {LN : LuaNumber}.

(** ** Lua values *)

Inductive udata_label := consumer_label | consumer_msg_label | producer_label.

#[warnings="-register-all"]
Inductive lua_value :=
| LNil
| LBoolean (b : bool)
| LNumber (n : lua_Number)
| LString (s : string)
(* a plain table, its entries in the order lua_next visits them *)
| LTable (entries : list (lua_value * lua_value))
(* a userdata holding one pointer, tagged by its metatable *)
| LUserdata (label : udata_label) (box : nat)
(* the int64 cdata luaL_pushint64 makes *)
| LInt64 (z : Z)
(* the table Consumer.create builds *)
| LConsumer (self : nat)
(* a fiber.channel *)
| LChannel (ch : nat).

Definition is_nil (v : lua_value) : bool :=
  match v with LNil => true | _ => false end.

Definition lua_istable (v : lua_value) : bool :=
  match v with LTable _ => true | _ => false end.

(** Strings and numbers both pass [lua_isstring]. *)
Definition lua_isstring (v : lua_value) : bool :=
  match v with LString _ | LNumber _ => true | _ => false end.

(** [lua_tostring]: NULL unless the value is a string or a number. *)
Definition lua_tostring (v : lua_value) : option string :=
  match v with
  | LString s => Some s
  | LNumber n => Some (lua_number2str n)
  | _ => None
  end.

(** [lua_gettable] with a string key, on a table without metatable. *)
Fixpoint lua_getfield (entries : list (lua_value * lua_value)) (k : string)
  : lua_value :=
  match entries with
  | [] => LNil
  | (LString s, v) :: rest => if String.eqb s k then v else lua_getfield rest k
  | _ :: rest => lua_getfield rest k
  end.

(** The value at a stack index (from 1) of the arguments. *)
Definition lua_arg (L : list lua_value) (index : nat) : lua_value :=
  nth (index - 1) L LNil.

Definition lua_gettop (L : list lua_value) : nat := List.length L.

(** ** The state *)

Inductive sched_call :=
| Fiber_channel (capacity : Z) (ch : nat)
| Fiber_create (f : fiber_function) (fb : nat)
| Fiber_cancel (fb : nat)
| Fiber_sleep_ms (ms : Z)
| Fiber_yield
| Channel_put (ch : nat) (v : lua_value)
| Channel_close (ch : nat)
| Log_error (v : lua_value).

(** [msg_t] *)
Record msg_t := {
  rd_message : option rd_kafka_message_t;
  rd_event : rd_kafka_event_t;
}.

(** [consumer_t]; a NULL field is [None]. *)
Record consumer_t := {
  rd_config : option nat;
  rd_consumer : option nat;
  topics : option rd_kafka_topic_partition_list_t;
  rd_event_queue : option nat;
  rd_msg_queue : option nat;
}.

(** The Lua table [new] of [Consumer.create]. *)
Record Consumer := {
  config : lua_value;
  _consumer : lua_value;
  _output_ch : nat;
  _poll_fiber : option nat;
  _poll_msg_fiber : option nat;
}.

Record world := {
  lib : librdkafka;
  (* what coio_call returns: the callback's 0, or -1 *)
  coio_call_reply : Z;
  (* calls into librdkafka so far, oldest first *)
  calls : list native_call;
  (* what the next polls of the record queue return; NULL once used up *)
  record_queue : list (option rd_kafka_event_t);
  (* the offsets librdkafka holds stored, by topic and partition *)
  stored_offsets : gmap (string * Z) Z;
  (* malloc'ed consumer_t by address; [None] once freed *)
  consumers : list (option consumer_t);
  (* malloc'ed msg_t by address *)
  msgs : list msg_t;
  (* userdata of each label by number: the pointer it holds, [None] NULL *)
  consumer_boxes : list (option nat);
  msg_boxes : list (option nat);
  (* the facade tables *)
  facades : list Consumer;
  (* calls into the scheduler so far, oldest first *)
  sched : list sched_call;
}.

Definition set_calls (f : list native_call -> list native_call) (w : world) :=
  {| lib := lib w; coio_call_reply := coio_call_reply w;
     calls := f (calls w); record_queue := record_queue w;
     stored_offsets := stored_offsets w; consumers := consumers w;
     msgs := msgs w; consumer_boxes := consumer_boxes w;
     msg_boxes := msg_boxes w; facades := facades w; sched := sched w |}.

Definition set_record_queue (q : list (option rd_kafka_event_t)) (w : world) :=
  {| lib := lib w; coio_call_reply := coio_call_reply w;
     calls := calls w; record_queue := q;
     stored_offsets := stored_offsets w; consumers := consumers w;
     msgs := msgs w; consumer_boxes := consumer_boxes w;
     msg_boxes := msg_boxes w; facades := facades w; sched := sched w |}.

Definition set_stored_offsets (s : gmap (string * Z) Z) (w : world) :=
  {| lib := lib w; coio_call_reply := coio_call_reply w;
     calls := calls w; record_queue := record_queue w;
     stored_offsets := s; consumers := consumers w;
     msgs := msgs w; consumer_boxes := consumer_boxes w;
     msg_boxes := msg_boxes w; facades := facades w; sched := sched w |}.

Definition set_consumers (c : list (option consumer_t)) (w : world) :=
  {| lib := lib w; coio_call_reply := coio_call_reply w;
     calls := calls w; record_queue := record_queue w;
     stored_offsets := stored_offsets w; consumers := c;
     msgs := msgs w; consumer_boxes := consumer_boxes w;
     msg_boxes := msg_boxes w; facades := facades w; sched := sched w |}.

Definition set_msgs (m : list msg_t) (w : world) :=
  {| lib := lib w; coio_call_reply := coio_call_reply w;
     calls := calls w; record_queue := record_queue w;
     stored_offsets := stored_offsets w; consumers := consumers w;
     msgs := m; consumer_boxes := consumer_boxes w;
     msg_boxes := msg_boxes w; facades := facades w; sched := sched w |}.

Definition set_consumer_boxes (b : list (option nat)) (w : world) :=
  {| lib := lib w; coio_call_reply := coio_call_reply w;
     calls := calls w; record_queue := record_queue w;
     stored_offsets := stored_offsets w; consumers := consumers w;
     msgs := msgs w; consumer_boxes := b;
     msg_boxes := msg_boxes w; facades := facades w; sched := sched w |}.

Definition set_msg_boxes (b : list (option nat)) (w : world) :=
  {| lib := lib w; coio_call_reply := coio_call_reply w;
     calls := calls w; record_queue := record_queue w;
     stored_offsets := stored_offsets w; consumers := consumers w;
     msgs := msgs w; consumer_boxes := consumer_boxes w;
     msg_boxes := b; facades := facades w; sched := sched w |}.

Definition set_facades (f : list Consumer) (w : world) :=
  {| lib := lib w; coio_call_reply := coio_call_reply w;
     calls := calls w; record_queue := record_queue w;
     stored_offsets := stored_offsets w; consumers := consumers w;
     msgs := msgs w; consumer_boxes := consumer_boxes w;
     msg_boxes := msg_boxes w; facades := f; sched := sched w |}.

Definition set_sched (f : list sched_call -> list sched_call) (w : world) :=
  {| lib := lib w; coio_call_reply := coio_call_reply w;
     calls := calls w; record_queue := record_queue w;
     stored_offsets := stored_offsets w; consumers := consumers w;
     msgs := msgs w; consumer_boxes := consumer_boxes w;
     msg_boxes := msg_boxes w; facades := facades w; sched := f (sched w) |}.

(** ** Outcomes and the monad of the module's functions *)

Inductive lua_error :=
(* luaL_error with the message the C code gives *)
| Error_msg (msg : string)
(* luaL_checkudata: argument [narg] is not a userdata of that label *)
| Type_error (narg : nat) (expected : udata_label)
(* a method call on a field that holds no object *)
| Index_error (field : string) (v : lua_value)
(* lua_next after the key it was given is no key of the table *)
| Invalid_key_to_next.

Inductive fault :=
| Use_after_free
| Null_dereference
| Buffer_overflow.

Inductive outcome (A : Type) :=
(* the function returns *)
| Ret (a : A)
(* a Lua error is raised *)
| Raise (e : lua_error)
(* the C code has left defined behaviour *)
| Fault (f : fault).

Arguments Ret {A} a.
Arguments Raise {A} e.
Arguments Fault {A} f.

Definition M (A : Type) : Type := world -> outcome A * world.

Definition ret {A} (a : A) : M A := fun w => (Ret a, w).

Definition bind {A B} (m : M A) (k : A -> M B) : M B :=
  fun w =>
    match m w with
    | (Ret a, w') => k a w'
    | (Raise e, w') => (Raise e, w')
    | (Fault f, w') => (Fault f, w')
    end.

Definition raise {A} (e : lua_error) : M A := fun w => (Raise e, w).
Definition crash {A} (f : fault) : M A := fun w => (Fault f, w).
Definition get : M world := fun w => (Ret w, w).
Definition modify (f : world -> world) : M unit := fun w => (Ret tt, f w).

Notation "x <- c1 ;; c2" := (bind c1 (fun x => c2))
  (at level 100, c1 at next level, right associativity).
Notation "c1 ;;; c2" := (bind c1 (fun _ => c2))
  (at level 100, right associativity).

(** ** Lua auxiliary library and C library *)

Definition luaL_error {A} (msg : string) : M A := raise (Error_msg msg).

(** [luaL_checkudata]: the number of the userdata at [index], when it
    carries the metatable registered under [label]. *)
Definition luaL_checkudata (L : list lua_value) (index : nat)
    (label : udata_label) : M nat :=
  match lua_arg L index, label with
  | LUserdata consumer_label box, consumer_label => ret box
  | LUserdata consumer_msg_label box, consumer_msg_label => ret box
  | LUserdata producer_label box, producer_label => ret box
  | _, _ => raise (Type_error index label)
  end.

(** [strcpy] into a local array of [size] bytes. *)
Definition strcpy (size : Z) (src : string) : M string :=
  if strlen src + 1 <=? size then ret (c_str src) else crash Buffer_overflow.

(** [strncpy] of [n] bytes into an array of [size] bytes: the bytes of the
    source string it leaves there, at most [n]. *)
Definition strncpy (size : Z) (src : string) (n : Z) : M string :=
  if n <=? size then ret (String.substring 0 (Z.to_nat n) (c_str src))
  else crash Buffer_overflow.

(** [save_pushstring_wrapped] under [lua_pcall]: the C string is pushed.
    Running out of memory, the one way the protected call fails, is
    outside the model, so the result is 0 and the string. *)
Definition safe_pushstring (str : string) : M (Z * lua_value) :=
  ret (0, LString (c_str str)).

(** [lua_push_error]: the number -3 goes under the error on top, and the
    two are what the function returns. *)
Definition lua_push_error (top : lua_value) : list lua_value :=
  [LNumber (lua_int2number (-3)); top].

(** The tail [int fail = safe_pushstring(L, s); return fail ?
    lua_push_error(L) : n] of the error paths, [pushed] being the values
    pushed before the string. *)
Definition return_string (pushed : list lua_value) (s : string)
  : M (list lua_value) :=
  r <- safe_pushstring s ;;
  if fst r =? 0 then ret (pushed ++ [snd r])
  else ret (lua_push_error (snd r)).

(** ** Consumer message *)

Definition lua_check_consumer_msg (L : list lua_value) (index : nat)
  : M msg_t :=
  box <- luaL_checkudata L index consumer_msg_label ;;
  w <- get ;;
  match msg_boxes w !! box with
  | Some (Some p) =>
      match msgs w !! p with
      | Some msg => ret msg
      | None => crash Use_after_free
      end
  | _ => luaL_error "Kafka consumer message fatal error: failed to retrieve message from lua stack!"
  end.

(** [msg->rd_message->...]: the record behind the handle. *)
Definition message_of (msg : msg_t) : M rd_kafka_message_t :=
  match rd_message msg with
  | Some m => ret m
  | None => crash Null_dereference
  end.

Definition lua_consumer_msg_topic (L : list lua_value) : M (list lua_value) :=
  msg <- lua_check_consumer_msg L 1 ;;
  m <- message_of msg ;;
  let const_topic := rd_kafka_topic_name (rkt m) in
  topic <- strcpy sizeof_pointer const_topic ;;
  return_string [] topic.

Definition lua_consumer_msg_partition (L : list lua_value)
  : M (list lua_value) :=
  msg <- lua_check_consumer_msg L 1 ;;
  m <- message_of msg ;;
  ret [LNumber (lua_int2number (partition m))].

Definition lua_consumer_msg_offset (L : list lua_value) : M (list lua_value) :=
  msg <- lua_check_consumer_msg L 1 ;;
  m <- message_of msg ;;
  ret [LInt64 (offset m)].

(** [lua_pushlstring]: [n] bytes from the address. *)
Definition lua_pushlstring (bytes : string) (n : Z) : lua_value :=
  LString (String.substring 0 (Z.to_nat n) bytes).

Definition lua_consumer_msg_key (L : list lua_value) : M (list lua_value) :=
  msg <- lua_check_consumer_msg L 1 ;;
  m <- message_of msg ;;
  match key m with
  | Some bytes =>
      if key_len m <=? 0 then ret []
      else ret [lua_pushlstring bytes (key_len m)]
  | None => ret []
  end.

Definition lua_consumer_msg_value (L : list lua_value) : M (list lua_value) :=
  msg <- lua_check_consumer_msg L 1 ;;
  m <- message_of msg ;;
  match payload m with
  | Some bytes =>
      if len m <=? 0 then ret []
      else ret [lua_pushlstring bytes (len m)]
  | None => ret []
  end.

(** The local array [key] (or [value]) of [lua_consumer_msg_tostring] once
    filled, read as a C string. *)
Definition tostring_field (bytes : option string) (n : Z) : M string :=
  let size := if n <=? 0 then 5 else size_t (n + 1) in
  match bytes with
  | Some b =>
      if n <=? 0 then strncpy size "NULL" 5
      else
        buf <- strncpy size b (size_t (n + 1)) ;;
        if n <? size then ret (String.substring 0 (Z.to_nat n) buf)
        else crash Buffer_overflow
  | None => strncpy size "NULL" 5
  end.

(** [%d] of [lua_pushfstring] takes an [int]: of the 64-bit offset it
    prints the low 32 bits. *)
Definition lua_consumer_msg_tostring (L : list lua_value)
  : M (list lua_value) :=
  msg <- lua_check_consumer_msg L 1 ;;
  m <- message_of msg ;;
  k <- tostring_field (key m) (key_len m) ;;
  v <- tostring_field (payload m) (len m) ;;
  ret [LString ("Kafka Consumer Message: topic="
                +:+ c_str (rd_kafka_topic_name (rkt m))
                +:+ " partition=" +:+ decimal (int32_t (partition m))
                +:+ " offset=" +:+ decimal (int32_t (offset m))
                +:+ " key=" +:+ k
                +:+ " value=" +:+ v)].

Definition rd_kafka_event_destroy (ev : rd_kafka_event_t) : M unit :=
  modify (set_calls (fun l => l ++ [Event_destroy ev])).

Definition lua_consumer_msg_gc (L : list lua_value) : M (list lua_value) :=
  box <- luaL_checkudata L 1 consumer_msg_label ;;
  w <- get ;;
  match msg_boxes w !! box with
  | Some (Some p) =>
      match msgs w !! p with
      | Some msg => rd_kafka_event_destroy (rd_event msg)
      | None => crash Use_after_free
      end
  | _ => ret tt
  end ;;;
  modify (fun w => set_msg_boxes (<[box := None]> (msg_boxes w)) w) ;;;
  ret [].

(** ** librdkafka, call by call *)

Definition native (c : native_call) : M unit :=
  modify (set_calls (fun l => l ++ [c])).

(** A handle no earlier call has returned. *)
Definition fresh_handle : M nat :=
  w <- get ;; ret (List.length (calls w)).

Definition rd_kafka_conf_new : M nat :=
  h <- fresh_handle ;; native (Conf_new h) ;;; ret h.

Definition rd_kafka_topic_conf_new : M nat :=
  h <- fresh_handle ;; native (Topic_conf_new h) ;;; ret h.

Definition rd_kafka_conf_set_default_topic_conf (conf tconf : nat) : M unit :=
  native (Conf_set_default_topic_conf conf tconf).

(** [None] is RD_KAFKA_CONF_OK, [Some errstr] what is left in [errstr]. *)
Definition rd_kafka_conf_set (conf : nat) (name value : string)
  : M (option string) :=
  native (Conf_set conf name value) ;;;
  w <- get ;; ret (conf_set_reply (lib w) name value).

(** The client, or NULL and the text left in [errstr]. *)
Definition rd_kafka_new (conf : nat) : M (option nat * string) :=
  w <- get ;;
  match new_reply (lib w) with
  | Some errstr => native (Kafka_new conf None) ;;; ret (None, errstr)
  | None =>
      h <- fresh_handle ;;
      native (Kafka_new conf (Some h)) ;;; ret (Some h, EmptyString)
  end.

Definition rd_kafka_brokers_add (rk : nat) (brokers : string) : M Z :=
  native (Brokers_add rk brokers) ;;;
  w <- get ;; ret (brokers_add_reply (lib w) brokers).

Definition rd_kafka_queue_get_main (rk : nat) : M nat :=
  h <- fresh_handle ;; native (Queue_get_main rk h) ;;; ret h.

Definition rd_kafka_queue_get_consumer (rk : nat) : M nat :=
  h <- fresh_handle ;; native (Queue_get_consumer rk h) ;;; ret h.

Definition rd_kafka_topic_partition_list_new (size : Z)
  : M rd_kafka_topic_partition_list_t :=
  native (Topic_partition_list_new size) ;;; ret [].

Definition rd_kafka_subscribe (rk : nat)
    (l : rd_kafka_topic_partition_list_t) : M rd_kafka_resp_err_t :=
  native (Subscribe rk l) ;;;
  w <- get ;; ret (subscribe_reply (lib w) l).

(** A poll that does not wait: the next scripted result of the record
    queue, NULL when the script is used up. *)
Definition rd_kafka_queue_poll (q : nat) (timeout_ms : Z)
  : M (option rd_kafka_event_t) :=
  native (Queue_poll q timeout_ms) ;;;
  w <- get ;;
  match record_queue w with
  | [] => ret None
  | r :: rest => modify (set_record_queue rest) ;;; ret r
  end.

(** The stub keeps the offset it is given when it reports no error. *)
Definition rd_kafka_offset_store (t : rd_kafka_topic_t) (part off : Z)
  : M rd_kafka_resp_err_t :=
  native (Offset_store t part off) ;;;
  w <- get ;;
  let err := offset_store_reply (lib w) t part off in
  (if err =? RD_KAFKA_RESP_ERR_NO_ERROR
   then modify (set_stored_offsets
                  (<[(rd_kafka_topic_name t, part) := off]> (stored_offsets w)))
   else ret tt) ;;;
  ret err.

Definition rd_kafka_queue_destroy (q : nat) : M unit :=
  native (Queue_destroy q).

Definition rd_kafka_consumer_close (rk : nat) : M rd_kafka_resp_err_t :=
  native (Kafka_consumer_close rk) ;;;
  w <- get ;; ret (consumer_close_reply (lib w)).

Definition rd_kafka_topic_partition_list_destroy
    (l : rd_kafka_topic_partition_list_t) : M unit :=
  native (Topic_partition_list_destroy l).

Definition rd_kafka_poll (rk : nat) (timeout_ms : Z) : M unit :=
  native (Poll rk timeout_ms).

(** ** The C heap *)

(** [consumer->...]: the struct at the address, which must be live. *)
Definition load_consumer (p : nat) : M consumer_t :=
  w <- get ;;
  match consumers w !! p with
  | Some (Some c) => ret c
  | _ => crash Use_after_free
  end.

Definition store_consumer (p : nat) (c : consumer_t) : M unit :=
  modify (fun w => set_consumers (<[p := Some c]> (consumers w)) w).

Definition malloc_consumer (c : consumer_t) : M nat :=
  w <- get ;;
  modify (set_consumers (consumers w ++ [Some c])) ;;;
  ret (List.length (consumers w)).

Definition free_consumer (p : nat) : M unit :=
  modify (fun w => set_consumers (<[p := None]> (consumers w)) w).

Definition malloc_msg (m : msg_t) : M nat :=
  w <- get ;;
  modify (set_msgs (msgs w ++ [m])) ;;;
  ret (List.length (msgs w)).

(** [lua_newuserdata] followed by the store of the pointer and
    [lua_setmetatable]. *)
Definition new_consumer_userdata (p : nat) : M lua_value :=
  w <- get ;;
  modify (set_consumer_boxes (consumer_boxes w ++ [Some p])) ;;;
  ret (LUserdata consumer_label (List.length (consumer_boxes w))).

Definition new_msg_userdata (p : nat) : M lua_value :=
  w <- get ;;
  modify (set_msg_boxes (msg_boxes w ++ [Some p])) ;;;
  ret (LUserdata consumer_msg_label (List.length (msg_boxes w))).

(** A native handle that must not be NULL where it is passed on. *)
Definition nonnull {A} (p : option A) : M A :=
  match p with
  | Some a => ret a
  | None => crash Null_dereference
  end.

(** ** Consumer *)

(** The pointer held by the consumer userdata at [index]. *)
Definition lua_check_consumer (L : list lua_value) (index : nat) : M nat :=
  box <- luaL_checkudata L index consumer_label ;;
  w <- get ;;
  match consumer_boxes w !! box with
  | Some (Some p) => ret p
  | _ => luaL_error "Kafka consumer fatal error: failed to retrieve consumer from lua stack!"
  end.

(** The struct after [consumer->topics] is given a new content. *)
Definition with_topics (c : consumer_t)
    (l : rd_kafka_topic_partition_list_t) : consumer_t :=
  {| rd_config := rd_config c; rd_consumer := rd_consumer c;
     topics := Some l;
     rd_event_queue := rd_event_queue c; rd_msg_queue := rd_msg_queue c |}.

(** [rd_kafka_topic_partition_list_add(consumer->topics, value, -1)] *)
Definition rd_kafka_topic_partition_list_add (consumer : nat)
    (topic : string) (part : Z) : M unit :=
  c <- load_consumer consumer ;;
  l <- nonnull (topics c) ;;
  native (Topic_partition_list_add topic part) ;;;
  store_consumer consumer (with_topics c (l ++ [(topic, part)])).

(** The [while (lua_next(L, -2))] of [lua_consumer_subscribe].  A value
    that is no string and no number gives a NULL topic name, which
    librdkafka copies. *)
Fixpoint subscribe_loop (consumer : nat)
    (entries : list (lua_value * lua_value)) : M unit :=
  match entries with
  | [] => ret tt
  | (_, v) :: rest =>
      value <- nonnull (lua_tostring v) ;;
      rd_kafka_topic_partition_list_add consumer (c_str value) (-1) ;;;
      subscribe_loop consumer rest
  end.

Definition table_entries (v : lua_value) : list (lua_value * lua_value) :=
  match v with LTable entries => entries | _ => [] end.

Definition lua_consumer_subscribe (L : list lua_value) : M (list lua_value) :=
  if negb (lua_gettop L =? 2)%nat || negb (lua_istable (lua_arg L 2)) then
    luaL_error "Usage: err = consumer:subscribe({'topic'})"
  else
    consumer <- lua_check_consumer L 1 ;;
    c <- load_consumer consumer ;;
    match topics c with
    | None =>
        (* lua_objlen of the userdata at index 1: the size of its block *)
        l <- rd_kafka_topic_partition_list_new sizeof_pointer ;;
        store_consumer consumer (with_topics c l)
    | Some _ => ret tt
    end ;;;
    subscribe_loop consumer (table_entries (lua_arg L 2)) ;;;
    c <- load_consumer consumer ;;
    rk <- nonnull (rd_consumer c) ;;
    l <- nonnull (topics c) ;;
    err <- rd_kafka_subscribe rk l ;;
    if err =? RD_KAFKA_RESP_ERR_NO_ERROR then ret []
    else
      w <- get ;;
      err_str <- strcpy 512 (rd_kafka_err2str (lib w) err) ;;
      return_string [] err_str.

(** [coio_call]: the function runs on a worker thread and its value comes
    back, unless the call itself fails, with -1. *)
Definition coio_call {A} (f : A -> M Z) (a : A) : M Z :=
  w <- get ;;
  if coio_call_reply w =? -1 then ret (-1) else f a.

Definition consumer_poll (rd_consumer : nat) : M Z :=
  rd_kafka_poll rd_consumer 1000 ;;; ret 0.

Definition lua_consumer_poll (L : list lua_value) : M (list lua_value) :=
  if negb (lua_gettop L =? 1)%nat then
    luaL_error "Usage: err = consumer:poll()"
  else
    consumer <- lua_check_consumer L 1 ;;
    c <- load_consumer consumer ;;
    rk <- nonnull (rd_consumer c) ;;
    r <- coio_call consumer_poll rk ;;
    if r =? -1 then ret [LString "unexpected error on consumer poll"]
    else ret [].

Definition lua_consumer_poll_msg (L : list lua_value) : M (list lua_value) :=
  if negb (lua_gettop L =? 1)%nat then
    luaL_error "Usage: msg, err = consumer:poll_msg()"
  else
    consumer <- lua_check_consumer L 1 ;;
    c <- load_consumer consumer ;;
    q <- nonnull (rd_msg_queue c) ;;
    event <- rd_kafka_queue_poll q 0 ;;
    match event with
    | Some ev =>
        if rd_kafka_event_type ev =? RD_KAFKA_EVENT_FETCH then
          msg <- malloc_msg {| rd_message := rd_kafka_event_message_next ev;
                               rd_event := ev |} ;;
          ud <- new_msg_userdata msg ;;
          ret [ud]
        else
          rd_kafka_event_destroy ev ;;;
          ret [LNil;
               LString ("got unexpected event type of '"
                        +:+ c_str (rd_kafka_event_name ev) +:+ "'")]
    | None => ret [LNil]
    end.

Definition lua_consumer_store_offset (L : list lua_value)
  : M (list lua_value) :=
  if negb (lua_gettop L =? 2)%nat then
    luaL_error "Usage: err = consumer:store_offset(msg)"
  else
    msg <- lua_check_consumer_msg L 2 ;;
    m <- message_of msg ;;
    err <- rd_kafka_offset_store (rkt m) (partition m) (offset m) ;;
    if err =? RD_KAFKA_RESP_ERR_NO_ERROR then ret []
    else
      w <- get ;;
      err_str <- strcpy 512 (rd_kafka_err2str (lib w) err) ;;
      return_string [] err_str.

(** [if (p != NULL) f(p);] *)
Definition when_nonnull {A} (p : option A) (f : A -> M unit) : M unit :=
  match p with
  | Some a => f a
  | None => ret tt
  end.

Definition consumer_close (consumer : nat) : M rd_kafka_resp_err_t :=
  c <- load_consumer consumer ;;
  when_nonnull (rd_msg_queue c) rd_kafka_queue_destroy ;;;
  err <- match rd_consumer c with
         | Some rk => rd_kafka_consumer_close rk
         | None => ret RD_KAFKA_RESP_ERR_NO_ERROR
         end ;;
  if negb (err =? RD_KAFKA_RESP_ERR_NO_ERROR) then ret err
  else
    when_nonnull (rd_event_queue c) rd_kafka_queue_destroy ;;;
    when_nonnull (topics c) rd_kafka_topic_partition_list_destroy ;;;
    free_consumer consumer ;;;
    ret err.

Definition lua_consumer_close (L : list lua_value) : M (list lua_value) :=
  box <- luaL_checkudata L 1 consumer_label ;;
  w <- get ;;
  match consumer_boxes w !! box with
  | Some (Some p) =>
      err <- consumer_close p ;;
      if negb (err =? RD_KAFKA_RESP_ERR_NO_ERROR) then
        w <- get ;;
        err_str <- strcpy 512 (rd_kafka_err2str (lib w) err) ;;
        return_string [LBoolean true] err_str
      else ret [LBoolean true]
  | _ => ret [LBoolean false]
  end.

Definition lua_consumer_gc (L : list lua_value) : M (list lua_value) :=
  box <- luaL_checkudata L 1 consumer_label ;;
  w <- get ;;
  match consumer_boxes w !! box with
  | Some (Some p) => err <- consumer_close p ;; ret tt
  | _ => ret tt
  end ;;;
  modify (fun w =>
            set_consumer_boxes (<[box := None]> (consumer_boxes w)) w) ;;;
  ret [].

(** The [while (lua_next(L, -2))] over the options of
    [lua_create_consumer]; [Some r] when the function returns [r] from
    inside the loop.  [lua_tostring] turns a number key into a string in
    place, and the next [lua_next] does not find that key. *)
Fixpoint options_loop (rd_config : nat)
    (entries : list (lua_value * lua_value)) : M (option (list lua_value)) :=
  match entries with
  | [] => ret None
  | (k, v) :: rest =>
      if negb (lua_isstring v) || negb (lua_isstring k) then
        r <- return_string [LNil]
               "consumer config options must contains only string keys and string values" ;;
        ret (Some r)
      else
        value <- nonnull (lua_tostring v) ;;
        key <- nonnull (lua_tostring k) ;;
        rejected <- rd_kafka_conf_set rd_config (c_str key) (c_str value) ;;
        match rejected with
        | Some errstr => r <- return_string [LNil] errstr ;; ret (Some r)
        | None =>
            match k with
            | LNumber _ => raise Invalid_key_to_next
            | _ => options_loop rd_config rest
            end
        end
  end.

Definition lua_create_consumer (L : list lua_value) : M (list lua_value) :=
  if negb (lua_gettop L =? 1)%nat || negb (lua_istable (lua_arg L 1)) then
    luaL_error "Usage: create_consumer(conf)"
  else
    let conf := table_entries (lua_arg L 1) in
    match lua_tostring (lua_getfield conf "brokers") with
    | None =>
        return_string [LNil]
          "consumer config table must have non nil key 'brokers' which contains string"
    | Some brokers =>
        rd_config <- rd_kafka_conf_new ;;
        topic_conf <- rd_kafka_topic_conf_new ;;
        rd_kafka_conf_set_default_topic_conf rd_config topic_conf ;;;
        returned <- (if lua_istable (lua_getfield conf "options") then
                       options_loop rd_config
                         (table_entries (lua_getfield conf "options"))
                     else ret None) ;;
        match returned with
        | Some r => ret r
        | None =>
            created <- rd_kafka_new rd_config ;;
            match fst created with
            | None => return_string [LNil] (snd created)
            | Some rd_consumer =>
                added <- rd_kafka_brokers_add rd_consumer (c_str brokers) ;;
                if added =? 0 then
                  return_string [LNil] "No valid brokers specified"
                else
                  rd_event_queue <- rd_kafka_queue_get_main rd_consumer ;;
                  rd_msg_queue <- rd_kafka_queue_get_consumer rd_consumer ;;
                  consumer <- malloc_consumer
                    {| rd_config := Some rd_config;
                       rd_consumer := Some rd_consumer;
                       topics := None;
                       rd_event_queue := Some rd_event_queue;
                       rd_msg_queue := Some rd_msg_queue |} ;;
                  ud <- new_consumer_userdata consumer ;;
                  ret [ud]
            end
        end
    end.

(** The methods [luaopen_kafka_tntkafka] registers for a consumer and for a
    consumer message (each metatable is its own [__index]); the consumer's
    [__tostring], which prints an address, is left out. *)
Definition consumer_methods (name : string)
  : option (list lua_value -> M (list lua_value)) :=
  if String.eqb name "subscribe" then Some lua_consumer_subscribe
  else if String.eqb name "poll" then Some lua_consumer_poll
  else if String.eqb name "poll_msg" then Some lua_consumer_poll_msg
  else if String.eqb name "store_offset" then Some lua_consumer_store_offset
  else if String.eqb name "close" then Some lua_consumer_close
  else if String.eqb name "__gc" then Some lua_consumer_gc
  else None.

Definition consumer_msg_methods (name : string)
  : option (list lua_value -> M (list lua_value)) :=
  if String.eqb name "topic" then Some lua_consumer_msg_topic
  else if String.eqb name "partition" then Some lua_consumer_msg_partition
  else if String.eqb name "offset" then Some lua_consumer_msg_offset
  else if String.eqb name "key" then Some lua_consumer_msg_key
  else if String.eqb name "value" then Some lua_consumer_msg_value
  else if String.eqb name "__tostring" then Some lua_consumer_msg_tostring
  else if String.eqb name "__gc" then Some lua_consumer_msg_gc
  else None.

(** ** The Lua facade *)

(** The fiber and log primitives, each one a logged call. *)
Definition schedule (c : sched_call) : M unit :=
  modify (set_sched (fun l => l ++ [c])).

Definition fiber_channel (capacity : Z) : M nat :=
  w <- get ;;
  schedule (Fiber_channel capacity (List.length (sched w))) ;;;
  ret (List.length (sched w)).

Definition fiber_create (f : fiber_function) : M nat :=
  w <- get ;;
  schedule (Fiber_create f (List.length (sched w))) ;;;
  ret (List.length (sched w)).

(** [self.<field>:cancel()] *)
Definition fiber_cancel (field : string) (fb : option nat) : M unit :=
  match fb with
  | Some f => schedule (Fiber_cancel f)
  | None => raise (Index_error field LNil)
  end.

(** [self.<field>:<name>(...)], the field holding [obj]. *)
Definition method_call (field : string) (obj : lua_value) (name : string)
    (args : list lua_value) : M (list lua_value) :=
  match obj with
  | LUserdata consumer_label _ =>
      match consumer_methods name with
      | Some f => f (obj :: args)
      | None => raise (Index_error name LNil)
      end
  | LUserdata consumer_msg_label _ =>
      match consumer_msg_methods name with
      | Some f => f (obj :: args)
      | None => raise (Index_error name LNil)
      end
  | _ => raise (Index_error field obj)
  end.

Definition load_facade (self : nat) : M Consumer :=
  w <- get ;;
  match facades w !! self with
  | Some s => ret s
  | None => raise (Index_error "self" LNil)
  end.

Definition store_facade (self : nat) (s : Consumer) : M unit :=
  modify (fun w => set_facades (<[self := s]> (facades w)) w).

Definition new_facade (s : Consumer) : M nat :=
  w <- get ;;
  modify (set_facades (facades w ++ [s])) ;;;
  ret (List.length (facades w)).

(** The first and second value of a call's results, nil when missing. *)
Definition result1 (r : list lua_value) : lua_value := nth 0 r LNil.
Definition result2 (r : list lua_value) : lua_value := nth 1 r LNil.

Definition Consumer_create (config : lua_value) : M (list lua_value) :=
  if is_nil config then ret [LNil; LString "config must not be nil"]
  else
    r <- lua_create_consumer [config] ;;
    let consumer := result1 r in
    let err := result2 r in
    if negb (is_nil err) then ret [LNil; err]
    else
      ch <- fiber_channel 10000 ;;
      new <- new_facade {| config := config; _consumer := consumer;
                           _output_ch := ch; _poll_fiber := None;
                           _poll_msg_fiber := None |} ;;
      poll_fiber <- fiber_create (Fn_poll new) ;;
      store_facade new {| config := config; _consumer := consumer;
                          _output_ch := ch; _poll_fiber := Some poll_fiber;
                          _poll_msg_fiber := None |} ;;;
      poll_msg_fiber <- fiber_create (Fn_poll_msg new) ;;
      store_facade new {| config := config; _consumer := consumer;
                          _output_ch := ch; _poll_fiber := Some poll_fiber;
                          _poll_msg_fiber := Some poll_msg_fiber |} ;;;
      ret [LConsumer new; LNil].

(** One turn of the [while true] of [Consumer:_poll]. *)
Definition Consumer__poll_turn (self : nat) : M unit :=
  s <- load_facade self ;;
  r <- method_call "_consumer" (_consumer s) "poll" [] ;;
  let err := result1 r in
  if negb (is_nil err) then schedule (Log_error err) else ret tt.

(** The first [n] turns of [Consumer:_poll], which never returns. *)
Fixpoint Consumer__poll (n : nat) (self : nat) : M unit :=
  match n with
  | O => ret tt
  | S n' => Consumer__poll_turn self ;;; Consumer__poll n' self
  end.

(** One turn of the [while true] of [Consumer:_poll_msg];
    [fiber.sleep(0.01)] is a sleep of 10 ms. *)
Definition Consumer__poll_msg_turn (self : nat) : M unit :=
  s <- load_facade self ;;
  r <- method_call "_consumer" (_consumer s) "poll_msg" [] ;;
  let msg := result1 r in
  let err := result2 r in
  if negb (is_nil err) then
    schedule (Log_error err) ;;; schedule (Fiber_sleep_ms 10)
  else if negb (is_nil msg) then
    schedule (Channel_put (_output_ch s) msg) ;;; schedule Fiber_yield
  else
    schedule (Fiber_sleep_ms 10).

(** The first [n] turns of [Consumer:_poll_msg], which never returns. *)
Fixpoint Consumer__poll_msg (n : nat) (self : nat) : M unit :=
  match n with
  | O => ret tt
  | S n' => Consumer__poll_msg_turn self ;;; Consumer__poll_msg n' self
  end.

Definition Consumer_close (self : nat) : M (list lua_value) :=
  s <- load_facade self ;;
  fiber_cancel "_poll_msg_fiber" (_poll_msg_fiber s) ;;;
  fiber_cancel "_poll_fiber" (_poll_fiber s) ;;;
  schedule (Channel_close (_output_ch s)) ;;;
  r <- method_call "_consumer" (_consumer s) "close" [] ;;
  let err := result2 r in
  s <- load_facade self ;;
  store_facade self {| config := config s; _consumer := LNil;
                       _output_ch := _output_ch s;
                       _poll_fiber := _poll_fiber s;
                       _poll_msg_fiber := _poll_msg_fiber s |} ;;;
  ret [err].

Definition Consumer_subscribe (self : nat) (topics : lua_value)
  : M (list lua_value) :=
  s <- load_facade self ;;
  method_call "_consumer" (_consumer s) "subscribe" [topics].

Definition Consumer_output (self : nat) : M (list lua_value) :=
  s <- load_facade self ;;
  ret [LChannel (_output_ch s)].

Definition Consumer_store_offset (self : nat) (message : lua_value)
  : M (list lua_value) :=
  s <- load_facade self ;;
  method_call "_consumer" (_consumer s) "store_offset" [message].

End Bridge.

Arguments Ret {LN A} a.
Arguments Raise {LN A} e.
Arguments Fault {LN A} f.

(** Numbers with an integer value, for running the model on examples. *)
Definition integral_numbers : LuaNumber :=
  {| lua_Number := Z; lua_number2str := decimal; lua_int2number := id |}.

#[global] Existing Instance integral_numbers.

(** ** Reading the state *)

Section Observations.

Context {LN : LuaNumber}.

(** The [msg_t] a message handle refers to, when it has not been
    released. *)
Definition message_handle (w : world) (h : lua_value) : option msg_t :=
  match h with
  | LUserdata consumer_msg_label box =>
      match msg_boxes w !! box with
      | Some (Some p) => msgs w !! p
      | _ => None
      end
  | _ => None
  end.

(** The record a live message handle gives access to. *)
Definition record_of (w : world) (h : lua_value)
  : option rd_kafka_message_t :=
  match message_handle w h with
  | Some msg => rd_message msg
  | None => None
  end.

(** The [consumer_t] a consumer userdata refers to, when it is live. *)
Definition consumer_handle (w : world) (h : lua_value) : option consumer_t :=
  match h with
  | LUserdata consumer_label box =>
      match consumer_boxes w !! box with
      | Some (Some p) =>
          match consumers w !! p with
          | Some c => c
          | None => None
          end
      | _ => None
      end
  | _ => None
  end.

(** The values put on a channel, oldest first. *)
Fixpoint channel_contents (ch : nat) (l : list sched_call) : list lua_value :=
  match l with
  | [] => []
  | Channel_put ch' v :: rest =>
      if Nat.eqb ch ch' then v :: channel_contents ch rest
      else channel_contents ch rest
  | _ :: rest => channel_contents ch rest
  end.

(** What Loop B of a facade works on: its output channel and the record
    queue of its native consumer, when that consumer is live. *)
Definition drain_queue (w : world) (self : nat) : option (nat * nat) :=
  match facades w !! self with
  | Some s =>
      match consumer_handle w (_consumer s) with
      | Some c =>
          match rd_msg_queue c with
          | Some q => Some (_output_ch s, q)
          | None => None
          end
      | None => None
      end
  | None => None
  end.

(** The [msg_t] Loop B builds, one for each fetched event of a script of
    poll results, in order. *)
Fixpoint fetched (script : list (option rd_kafka_event_t)) : list msg_t :=
  match script with
  | [] => []
  | Some ev :: rest =>
      if rd_kafka_event_type ev =? RD_KAFKA_EVENT_FETCH then
        {| rd_message := rd_kafka_event_message_next ev; rd_event := ev |}
        :: fetched rest
      else fetched rest
  | None :: rest => fetched rest
  end.

(** The calls Loop B makes to the scheduler, turn by turn, on a script of
    poll results; [next] numbers the message handles it creates. *)
Fixpoint drain_trace (ch next : nat)
    (script : list (option rd_kafka_event_t)) : list sched_call :=
  match script with
  | [] => []
  | None :: rest => Fiber_sleep_ms 10 :: drain_trace ch next rest
  | Some ev :: rest =>
      if rd_kafka_event_type ev =? RD_KAFKA_EVENT_FETCH then
        Channel_put ch (LUserdata consumer_msg_label next)
        :: Fiber_yield :: drain_trace ch (S next) rest
      else
        Log_error (LString ("got unexpected event type of '"
                            +:+ c_str (rd_kafka_event_name ev) +:+ "'"))
        :: Fiber_sleep_ms 10 :: drain_trace ch next rest
  end.

(** The same for poll results that are either no data ([None]) or one
    fetched record. *)
Fixpoint forwarding (ch next : nat)
    (polls : list (option rd_kafka_message_t)) : list sched_call :=
  match polls with
  | [] => []
  | None :: rest => Fiber_sleep_ms 10 :: forwarding ch next rest
  | Some _ :: rest =>
      Channel_put ch (LUserdata consumer_msg_label next)
      :: Fiber_yield :: forwarding ch (S next) rest
  end.

(** The records among such poll results, in order. *)
Definition records (polls : list (option rd_kafka_message_t))
  : list rd_kafka_message_t := omap id polls.

(** A table of topic names, and the list elements it adds. *)
Definition named (names : list (lua_value * string))
  : list (lua_value * lua_value) :=
  map (fun e => (fst e, LString (snd e))) names.

Definition listed (names : list (lua_value * string))
  : rd_kafka_topic_partition_list_t :=
  map (fun e => (c_str (snd e), -1)) names.

(** An options table of string keys with string values. *)
Definition string_pairs (l : list (string * string))
  : list (lua_value * lua_value) :=
  map (fun e => (LString (fst e), LString (snd e))) l.

(** A computation that leaves the scheduler log and the facades alone. *)
Definition quiet {A} (m : M A) : Prop :=
  forall w, sched (snd (m w)) = sched w /\ facades (snd (m w)) = facades w.

(** The two configuration errors of [create_consumer]. *)
Definition brokers_error : string :=
  "consumer config table must have non nil key 'brokers' which contains string".

Definition options_error : string :=
  "consumer config options must contains only string keys and string values".



(** [create_consumer] returns nil and an error message, and no call that
    allocates a native object has been made. *)
Definition fails_before_allocation (conf : lua_value) (w : world) : Prop :=
  let r := lua_create_consumer [conf] w in
  (exists msg, fst r = Ret [LNil; LString msg]) /\
  List.filter allocates (calls (snd r)) = List.filter allocates (calls w).

(** The message [lua_check_consumer_msg] raises on a cleared handle. *)
Definition fatal_message_error : string :=
  "Kafka consumer message fatal error: failed to retrieve message from lua stack!".


(** The native calls Loop B makes over a script of poll results: one poll
    a turn, and the event destroyed at once when it is no fetch. *)
Fixpoint poll_calls (q : nat) (script : list (option rd_kafka_event_t))
  : list native_call :=
  match script with
  | [] => []
  | None :: rest => Queue_poll q 0 :: poll_calls q rest
  | Some ev :: rest =>
      if rd_kafka_event_type ev =? RD_KAFKA_EVENT_FETCH then
        Queue_poll q 0 :: poll_calls q rest
      else Queue_poll q 0 :: Event_destroy ev :: poll_calls q rest
  end.

(** What Loop A of a facade drives: the client of its native consumer, when
    that consumer is live. *)
Definition poll_client (w : world) (self : nat) : option nat :=
  match facades w !! self with
  | Some s =>
      match consumer_handle w (_consumer s) with
      | Some c => rd_consumer c
      | None => None
      end
  | None => None
  end.

(** What [consumer:poll()] returns when the worker call fails. *)
Definition poll_error : lua_value :=
  LString "unexpected error on consumer poll".

(** The message [lua_check_consumer] raises on a cleared handle. *)
Definition fatal_consumer_error : string :=
  "Kafka consumer fatal error: failed to retrieve consumer from lua stack!".

(** A configuration whose options, if any, are the given string pairs. *)
Definition has_options (conf : list (lua_value * lua_value))
    (accepted : list (string * string)) : Prop :=
  lua_getfield conf "options" = LTable (string_pairs accepted) \/
  (lua_istable (lua_getfield conf "options") = false /\ accepted = []).

(** The native calls of [create_consumer] up to the end of the options. *)
Definition configured (rd_config : nat) (accepted : list (string * string))
  : list native_call :=
  [Conf_new rd_config; Topic_conf_new (S rd_config);
   Conf_set_default_topic_conf rd_config (S rd_config)]
  ++ map (fun e => Conf_set rd_config (c_str (fst e)) (c_str (snd e)))
         accepted.

(** The native calls of one [subscribe]: the list is made when the
    consumer has none, every name is added, the whole list is subscribed. *)
Definition subscribe_calls (c : consumer_t) (rk : nat)
    (names : list (lua_value * string)) : list native_call :=
  match topics c with
  | None => [Topic_partition_list_new sizeof_pointer]
  | Some _ => []
  end
  ++ map (fun e => Topic_partition_list_add (c_str (snd e)) (-1)) names
  ++ [Subscribe rk (default [] (topics c) ++ listed names)].

End Observations.

(** ** Examples *)

(** A broker client that accepts everything. *)
Definition agreeable : librdkafka :=
  {| conf_set_reply := fun _ _ => None;
     new_reply := None;
     brokers_add_reply := fun _ => 1;
     subscribe_reply := fun _ => RD_KAFKA_RESP_ERR_NO_ERROR;
     offset_store_reply := fun _ _ _ => RD_KAFKA_RESP_ERR_NO_ERROR;
     consumer_close_reply := RD_KAFKA_RESP_ERR_NO_ERROR;
     rd_kafka_err2str := fun _ => "Success"%string |}.

(** A broker client whose close times out. *)
Definition timing_out : librdkafka :=
  {| conf_set_reply := fun _ _ => None;
     new_reply := None;
     brokers_add_reply := fun _ => 1;
     subscribe_reply := fun _ => RD_KAFKA_RESP_ERR_NO_ERROR;
     offset_store_reply := fun _ _ _ => RD_KAFKA_RESP_ERR_NO_ERROR;
     consumer_close_reply := -185;
     rd_kafka_err2str := fun _ => "Local: Timed out"%string |}.

Definition start (l : librdkafka) (q : list (option rd_kafka_event_t))
  : world :=
  {| lib := l; coio_call_reply := 0; calls := []; record_queue := q;
     stored_offsets := ∅; consumers := []; msgs := []; consumer_boxes := [];
     msg_boxes := []; facades := []; sched := [] |}.

(** The record of the round trip: key and value present or absent. *)
Definition orders_record (with_key with_value : bool) : rd_kafka_message_t :=
  {| rkt := {| topic_name := "orders" |};
     partition := 0;
     payload := if with_value then Some "v1"%string else None;
     len := if with_value then 2 else 0;
     key := if with_key then Some "k1"%string else None;
     key_len := if with_key then 2 else 0;
     offset := 42 |}.

Definition fetch (records : list rd_kafka_message_t) : rd_kafka_event_t :=
  {| event_type := RD_KAFKA_EVENT_FETCH; event_name := "Fetch";
     event_messages := records |}.

(** A configuration naming one broker, and the state once a consumer has
    been created from it: facade 0 on channel 0, its native consumer in
    userdata 0, with client 3 and record queue 6. *)
Definition conf_localhost : lua_value :=
  LTable [(LString "brokers", LString "localhost:9092")].

Definition created (l : librdkafka) (q : list (option rd_kafka_event_t))
  : world := snd (Consumer_create conf_localhost (start l q)).

(** A boolean where an option value should be. *)
Definition conf_bad_option : lua_value :=
  LTable [(LString "brokers", LString "localhost:9092");
          (LString "options",
           LTable [(LString "group.id", LString "g");
                   (LString "enable.auto.commit", LBoolean true)])].

(** A number where the broker list should be. *)
Definition conf_number_brokers : lua_value :=
  LTable [(LString "brokers", LNumber (lua_int2number 9092))].

(** No [brokers] at all. *)
Definition conf_no_brokers : lua_value :=
  LTable [(LString "options", LTable [])].

Definition facade0 : Consumer :=
  {| config := conf_localhost; _consumer := LUserdata consumer_label 0;
     _output_ch := 0; _poll_fiber := Some 1%nat;
     _poll_msg_fiber := Some 2%nat |}.

Definition consumer0 : consumer_t :=
  {| rd_config := Some 0%nat; rd_consumer := Some 3%nat; topics := None;
     rd_event_queue := Some 5%nat; rd_msg_queue := Some 6%nat |}.

(** The event of a poll that fetched one record. *)
Definition one_record (m : rd_kafka_message_t) : rd_kafka_event_t := fetch [m].

(** A state with one message handle, number 0, on the given record. *)
Definition holding (m : rd_kafka_message_t) : world :=
  {| lib := agreeable; coio_call_reply := 0; calls := []; record_queue := [];
     stored_offsets := ∅; consumers := [];
     msgs := [{| rd_message := Some m; rd_event := fetch [m] |}];
     consumer_boxes := []; msg_boxes := [Some 0%nat]; facades := [];
     sched := [] |}.

(** A record on a topic whose name has eight characters. *)
Definition payments_record : rd_kafka_message_t :=
  {| rkt := {| topic_name := "payments" |};
     partition := 1; payload := Some "v"%string; len := 1;
     key := None; key_len := 0; offset := 7 |}.

(** An event that is no fetch. *)
Definition error_event : rd_kafka_event_t :=
  {| event_type := 8; event_name := "Error"; event_messages := [] |}.

(** A broker list and one option. *)
Definition conf_group : lua_value :=
  LTable [(LString "brokers", LString "localhost:9092");
          (LString "options", LTable [(LString "group.id", LString "g")])].

(** An accepted option and then one that the client does not know. *)
Definition conf_unknown_option : lua_value :=
  LTable [(LString "brokers", LString "localhost:9092");
          (LString "options",
           LTable [(LString "group.id", LString "g");
                   (LString "no.such", LString "1")])].

(** A broker client that knows no property [no.such]. *)
Definition picky : librdkafka :=
  {| conf_set_reply := fun name _ =>
       if String.eqb name "no.such"
       then Some "No such configuration property"%string else None;
     new_reply := None;
     brokers_add_reply := fun _ => 1;
     subscribe_reply := fun _ => RD_KAFKA_RESP_ERR_NO_ERROR;
     offset_store_reply := fun _ _ _ => RD_KAFKA_RESP_ERR_NO_ERROR;
     consumer_close_reply := RD_KAFKA_RESP_ERR_NO_ERROR;
     rd_kafka_err2str := fun _ => "Success"%string |}.

(** A broker client that cannot be created. *)
Definition unavailable : librdkafka :=
  {| conf_set_reply := fun _ _ => None;
     new_reply := Some "Failed to create thread"%string;
     brokers_add_reply := fun _ => 1;
     subscribe_reply := fun _ => RD_KAFKA_RESP_ERR_NO_ERROR;
     offset_store_reply := fun _ _ _ => RD_KAFKA_RESP_ERR_NO_ERROR;
     consumer_close_reply := RD_KAFKA_RESP_ERR_NO_ERROR;
     rd_kafka_err2str := fun _ => "Success"%string |}.

(** A broker client that takes no broker of the list. *)
Definition brokerless : librdkafka :=
  {| conf_set_reply := fun _ _ => None;
     new_reply := None;
     brokers_add_reply := fun _ => 0;
     subscribe_reply := fun _ => RD_KAFKA_RESP_ERR_NO_ERROR;
     offset_store_reply := fun _ _ _ => RD_KAFKA_RESP_ERR_NO_ERROR;
     consumer_close_reply := RD_KAFKA_RESP_ERR_NO_ERROR;
     rd_kafka_err2str := fun _ => "Success"%string |}.

(** A broker client that refuses every subscription. *)
Definition refusing : librdkafka :=
  {| conf_set_reply := fun _ _ => None;
     new_reply := None;
     brokers_add_reply := fun _ => 1;
     subscribe_reply := fun _ => -186;
     offset_store_reply := fun _ _ _ => RD_KAFKA_RESP_ERR_NO_ERROR;
     consumer_close_reply := RD_KAFKA_RESP_ERR_NO_ERROR;
     rd_kafka_err2str := fun _ =>
       "Local: Invalid argument or configuration"%string |}.

(** The state of [created] with the worker pool failing every call. *)
Definition created_without_workers (l : librdkafka) : world :=
  let w := created l [] in
  {| lib := lib w; coio_call_reply := -1; calls := calls w;
     record_queue := record_queue w; stored_offsets := stored_offsets w;
     consumers := consumers w; msgs := msgs w;
     consumer_boxes := consumer_boxes w; msg_boxes := msg_boxes w;
     facades := facades w; sched := sched w |}.
(** ** Properties *)

Section Properties.

Context {LN : LuaNumber}.

(** *** Running the model step by step *)

(** A sequence whose first step returns goes on with what it returned. *)
Lemma bind_run {A B} (m : M A) (k : A -> M B) (w w' : world) (a : A) :
  m w = (Ret a, w') -> bind m k w = k a w'.
Proof. intros H. unfold bind. now rewrite H. Qed.

(** Replace the first step of a sequence by what [H] says it does. *)
Tactic Notation "run" uconstr(H) := rewrite (bind_run _ _ _ _ _ H).

Lemma load_consumer_run (w : world) (p : nat) (c : consumer_t) :
  consumers w !! p = Some (Some c) -> load_consumer p w = (Ret c, w).
Proof. intros H. unfold load_consumer, bind, get. now rewrite H. Qed.

Lemma lua_check_consumer_run (w : world) (L : list lua_value) (i box p : nat) :
  lua_arg L i = LUserdata consumer_label box ->
  consumer_boxes w !! box = Some (Some p) ->
  lua_check_consumer L i w = (Ret p, w).
Proof.
  intros HL H. unfold lua_check_consumer, luaL_checkudata, bind, get.
  rewrite HL. cbn. now rewrite H.
Qed.

Lemma load_facade_run (w : world) (self : nat) (s : Consumer) :
  facades w !! self = Some s -> load_facade self w = (Ret s, w).
Proof. intros H. unfold load_facade, bind, get. now rewrite H. Qed.

(** A live message handle passes the check of the accessors. *)
Lemma check_msg_handle (w : world) (L : list lua_value) (i : nat)
    (msg : msg_t) :
  message_handle w (lua_arg L i) = Some msg ->
  lua_check_consumer_msg L i w = (Ret msg, w).
Proof.
  unfold message_handle, lua_check_consumer_msg, luaL_checkudata, bind.
  destruct (lua_arg L i) as [| | | | |[] box| | |]; try discriminate.
  cbn. destruct (msg_boxes w !! box) as [[p|]|]; try discriminate.
  intros ->. reflexivity.
Qed.

Lemma bind_check_record {A} (w : world) (L : list lua_value) (i : nat)
    (m : rd_kafka_message_t) (k : rd_kafka_message_t -> M A) :
  record_of w (lua_arg L i) = Some m ->
  bind (lua_check_consumer_msg L i)
       (fun msg => bind (message_of msg) k) w = k m w.
Proof.
  unfold record_of. destruct (message_handle w (lua_arg L i)) eqn:E;
    [|discriminate].
  intros Hm. unfold bind at 1. rewrite (check_msg_handle _ _ _ _ E).
  unfold bind, message_of. rewrite Hm. reflexivity.
Qed.

(** What a live consumer handle, and a facade with one, consist of. *)
Lemma consumer_handle_inv (w : world) (h : lua_value) (c : consumer_t) :
  consumer_handle w h = Some c ->
  exists box p,
    h = LUserdata consumer_label box /\
    consumer_boxes w !! box = Some (Some p) /\
    consumers w !! p = Some (Some c).
Proof.
  unfold consumer_handle.
  destruct h as [| | | | |[] box| | |]; try discriminate.
  destruct (consumer_boxes w !! box) as [[p|]|] eqn:Hbox; try discriminate.
  destruct (consumers w !! p) as [[c'|]|] eqn:Hc; try discriminate.
  intros [= <-]. now exists box, p.
Qed.

Lemma drain_queue_inv (w : world) (self ch q : nat) :
  drain_queue w self = Some (ch, q) ->
  exists s box p c,
    facades w !! self = Some s /\
    _consumer s = LUserdata consumer_label box /\
    _output_ch s = ch /\
    consumer_boxes w !! box = Some (Some p) /\
    consumers w !! p = Some (Some c) /\
    rd_msg_queue c = Some q.
Proof.
  unfold drain_queue, consumer_handle.
  destruct (facades w !! self) as [s|]; [|discriminate].
  destruct (_consumer s) as [| | | | |[] box| | |] eqn:Hud; try discriminate.
  destruct (consumer_boxes w !! box) as [[p|]|] eqn:Hbox; try discriminate.
  destruct (consumers w !! p) as [[c|]|] eqn:Hc; try discriminate.
  destruct (rd_msg_queue c) as [q'|] eqn:Hmq; [|discriminate].
  intros [= <- <-]. now exists s, box, p, c.
Qed.

(** *** C strings *)

Lemma substring_all (s : string) : String.substring 0 (String.length s) s = s.
Proof. induction s as [|c r IH]; cbn; [reflexivity | now rewrite IH]. Qed.

Lemma c_str_idempotent (s : string) : c_str (c_str s) = c_str s.
Proof.
  induction s as [|a r IH]; cbn; [reflexivity|].
  destruct (Ascii.eqb a zero) eqn:E; cbn; [reflexivity|].
  now rewrite E, IH.
Qed.

Lemma c_str_nul_free (s : string) : nul_free s = true -> c_str s = s.
Proof.
  induction s as [|a r IH]; cbn; [reflexivity|].
  destruct (Ascii.eqb a zero); cbn; [discriminate|].
  intros H. now rewrite IH.
Qed.


(** *** What a step leaves alone *)

Lemma quiet_ret {A} (a : A) : quiet (ret a).
Proof. intros w. now split. Qed.

Lemma quiet_raise {A} (e : lua_error) : quiet (raise e : M A).
Proof. intros w. now split. Qed.

Lemma quiet_crash {A} (f : fault) : quiet (crash f : M A).
Proof. intros w. now split. Qed.

Lemma quiet_bind {A B} (m : M A) (k : A -> M B) :
  quiet m -> (forall a, quiet (k a)) -> quiet (bind m k).
Proof.
  intros Hm Hk w. unfold bind. destruct (Hm w) as [H1 H2].
  destruct (m w) as [[a | e | f] w1]; cbn in *; try now split.
  destruct (Hk a w1) as [H3 H4]. split; congruence.
Qed.

Lemma quiet_get : quiet get.
Proof. intros w. now split. Qed.

Lemma quiet_native (c : native_call) : quiet (native c).
Proof. intros w. now split. Qed.

Lemma quiet_nonnull {A} (p : option A) : quiet (nonnull p).
Proof. destruct p; intros w; now split. Qed.

(** [auto with quiet] puts quiet steps together. *)
Create HintDb quiet.
#[local] Hint Resolve quiet_ret quiet_raise quiet_crash quiet_bind quiet_get
  quiet_native quiet_nonnull : quiet.
#[local] Hint Unfold return_string safe_pushstring rd_kafka_conf_set
  rd_kafka_conf_new rd_kafka_topic_conf_new fresh_handle
  rd_kafka_conf_set_default_topic_conf rd_kafka_brokers_add
  rd_kafka_queue_get_main rd_kafka_queue_get_consumer : quiet.

(** Split on the tests the function makes. *)
Ltac quiet_cases :=
  repeat match goal with
         | |- quiet (if ?b then _ else _) => destruct b
         | |- quiet (match ?x with Some _ => _ | None => _ end) => destruct x
         end.

Lemma quiet_return_string (pushed : list lua_value) (s : string) :
  quiet (return_string pushed s).
Proof. intros w. now split. Qed.
#[local] Hint Resolve quiet_return_string : quiet.
(** *** Message handles *)

(** The first [n] bytes of what is at an address, [n] of them being there. *)
Lemma substring_prefix (s : string) :
  forall n : nat, (n <= String.length s)%nat ->
  exists rest,
    s = String.substring 0 n s +:+ rest /\
    String.length (String.substring 0 n s) = n.
Proof.
  induction s as [|c r IH]; intros [|n] Hn; cbn in *.
  - now exists EmptyString.
  - lia.
  - now exists (String c r).
  - destruct (IH n) as (rest & Hrest & Hlen); [lia|].
    exists rest. split; [exact (f_equal (String c) Hrest) | now rewrite Hlen].
Qed.

(** C5. The lengths of a record are [size_t] values, so a length of zero
    or less is zero.  [key()] ([value()]) returns nothing at all, and no
    empty string, exactly when the key (value) has length zero or a null
    pointer.  For a non-null key (value) of positive length n, with at
    least n bytes at the pointer, it returns the first n of those bytes
    and no more, whatever follows them in memory. *)
Theorem key_value_absent_or_exact (w : world) (h : lua_value)
    (m : rd_kafka_message_t) :
  record_of w h = Some m ->
  0 <= key_len m < 2 ^ 64 ->
  0 <= len m < 2 ^ 64 ->
  (lua_consumer_msg_key [h] w = (Ret [], w)
   <-> key_len m <= 0 \/ key m = None) /\
  (lua_consumer_msg_value [h] w = (Ret [], w)
   <-> len m <= 0 \/ payload m = None) /\
  (forall memory, key m = Some memory ->
     0 < key_len m <= Z.of_nat (String.length memory) ->
     exists bytes rest,
       memory = bytes +:+ rest /\
       Z.of_nat (String.length bytes) = key_len m /\
       lua_consumer_msg_key [h] w = (Ret [LString bytes], w)) /\
  (forall memory, payload m = Some memory ->
     0 < len m <= Z.of_nat (String.length memory) ->
     exists bytes rest,
       memory = bytes +:+ rest /\
       Z.of_nat (String.length bytes) = len m /\
       lua_consumer_msg_value [h] w = (Ret [LString bytes], w)).
Proof.
  intros Hm Hkey_range Hlen_range.
  assert (Hk : forall k, bind (lua_check_consumer_msg [h] 1)
                 (fun msg => bind (message_of msg) k) w
               = k m w :> outcome (list lua_value) * world)
    by (intros k; now apply bind_check_record).
  unfold lua_consumer_msg_key, lua_consumer_msg_value. rewrite !Hk.
  assert (Hfield : forall (field : option string) (n : Z),
            (match field with
             | Some bytes =>
                 if n <=? 0 then ret [] else ret [lua_pushlstring bytes n]
             | None => ret []
             end w = (Ret [], w) <-> n <= 0 \/ field = None) /\
            (forall memory, field = Some memory ->
               0 < n <= Z.of_nat (String.length memory) ->
               exists bytes rest,
                 memory = bytes +:+ rest /\
                 Z.of_nat (String.length bytes) = n /\
                 match field with
                 | Some bytes =>
                     if n <=? 0 then ret [] else ret [lua_pushlstring bytes n]
                 | None => ret []
                 end w = (Ret [LString bytes], w))).
  { intros field n. split.
    - destruct field as [memory|]; [|split; [now right | reflexivity]].
      destruct (n <=? 0) eqn:Hn.
      + apply Z.leb_le in Hn. split; [now left | reflexivity].
      + apply Z.leb_gt in Hn. split; [discriminate|].
        intros [Hle | Hnull]; [lia | discriminate].
    - intros memory -> [Hpos Hfits].
      destruct (substring_prefix memory (Z.to_nat n)) as (rest & Hrest & Hlen);
        [lia|].
      exists (String.substring 0 (Z.to_nat n) memory), rest.
      split; [exact Hrest|]. split; [lia|].
      apply Z.leb_gt in Hpos. now rewrite Hpos. }
  destruct (Hfield (key m) (key_len m)) as (Hkey_absent & Hkey_bytes).
  destruct (Hfield (payload m) (len m)) as (Hvalue_absent & Hvalue_bytes).
  exact (conj Hkey_absent (conj Hvalue_absent (conj Hkey_bytes Hvalue_bytes))).
Qed.

(** C6. For the record with key "k1", value "v1", topic "orders",
    partition 0 and offset 42 the handle returns topic "orders", partition
    0, offset 42, key "k1" and value "v1", and its debug string shows the
    five fields in one fixed format; with the key or the value absent, the
    accessor returns nothing and the debug string shows NULL in its
    place. *)
Theorem orders_round_trip (w : world) (h : lua_value)
    (with_key with_value : bool) :
  record_of w h = Some (orders_record with_key with_value) ->
  lua_consumer_msg_topic [h] w = (Ret [LString "orders"], w) /\
  lua_consumer_msg_partition [h] w = (Ret [LNumber (lua_int2number 0)], w) /\
  lua_consumer_msg_offset [h] w = (Ret [LInt64 42], w) /\
  lua_consumer_msg_key [h] w
    = (Ret (if with_key then [LString "k1"] else []), w) /\
  lua_consumer_msg_value [h] w
    = (Ret (if with_value then [LString "v1"] else []), w) /\
  lua_consumer_msg_tostring [h] w
    = (Ret [LString
              ("Kafka Consumer Message: topic=orders partition=0 offset=42 key="
               +:+ (if with_key then "k1" else "NULL")
               +:+ " value=" +:+ (if with_value then "v1" else "NULL"))], w).
Proof.
  intros Hm.
  assert (Hk : forall k, bind (lua_check_consumer_msg [h] 1)
                 (fun msg => bind (message_of msg) k) w
               = k (orders_record with_key with_value) w
               :> outcome (list lua_value) * world)
    by (intros k; now apply bind_check_record).
  unfold lua_consumer_msg_topic, lua_consumer_msg_partition,
    lua_consumer_msg_offset, lua_consumer_msg_key, lua_consumer_msg_value,
    lua_consumer_msg_tostring.
  rewrite !Hk.
  destruct with_key, with_value; repeat split; reflexivity.
Qed.

(** C8. For a live message handle on a record of topic t, partition p and
    offset o, [store_offset] calls the offset-store primitive with exactly
    (t, p, o).  When that call reports no error nothing is returned and the
    offset held for (t, p) is o; when it reports an error, and only then,
    the text of that error is returned. *)
Theorem store_offset_stores_record_offset (w : world) (c h : lua_value)
    (m : rd_kafka_message_t) :
  record_of w h = Some m ->
  let err := offset_store_reply (lib w) (rkt m) (partition m) (offset m) in
  let detail := rd_kafka_err2str (lib w) err in
  strlen detail < 512 ->
  let r := lua_consumer_store_offset [c; h] w in
  calls (snd r) = calls w ++ [Offset_store (rkt m) (partition m) (offset m)] /\
  (err = RD_KAFKA_RESP_ERR_NO_ERROR ->
   fst r = Ret [] /\
   stored_offsets (snd r) !! (rd_kafka_topic_name (rkt m), partition m)
     = Some (offset m)) /\
  (err <> RD_KAFKA_RESP_ERR_NO_ERROR ->
   fst r = Ret [LString (c_str detail)] /\
   stored_offsets (snd r) = stored_offsets w).
Proof.
  intros Hm err detail Hfit r. subst r.
  unfold lua_consumer_store_offset. cbn [lua_gettop List.length Nat.eqb negb].
  rewrite (bind_check_record w [c; h] 2 m) by exact Hm.
  unfold rd_kafka_offset_store, native, bind, modify, get, ret.
  cbn [set_calls lib fst snd].
  fold err. clearbody err.
  destruct (err =? RD_KAFKA_RESP_ERR_NO_ERROR) eqn:Hb; cbn; rewrite Hb.
  - apply Z.eqb_eq in Hb. cbn. repeat split; try congruence.
    apply lookup_insert_eq.
  - apply Z.eqb_neq in Hb.
    assert (Hle : (strlen detail + 1 <=? 512) = true) by (apply Z.leb_le; lia).
    subst detail. unfold strcpy. cbn [lib set_calls]. rewrite Hle. cbn.
    rewrite c_str_idempotent.
    repeat split; try congruence.
Qed.
(** *** Subscription *)

(** The loop appends every name of the table to the list. *)
Lemma subscribe_loop_run (names : list (lua_value * string)) :
  forall (w : world) (p : nat) (c : consumer_t)
         (l : rd_kafka_topic_partition_list_t),
  consumers w !! p = Some (Some c) ->
  topics c = Some l ->
  exists w', subscribe_loop p (named names) w = (Ret tt, w') /\
    consumers w' !! p = Some (Some (with_topics c (l ++ listed names))) /\
    consumer_boxes w' = consumer_boxes w /\
    lib w' = lib w /\
    facades w' = facades w /\
    calls w'
      = calls w
        ++ map (fun e => Topic_partition_list_add (c_str (snd e)) (-1)) names.
Proof.
  induction names as [|[k t] rest IH]; intros w p c l Hc Hl.
  - exists w. cbn. rewrite !app_nil_r. repeat split; try reflexivity.
    rewrite Hc. destruct c; cbn in *. now subst.
  - cbn [named map subscribe_loop fst snd lua_tostring nonnull].
    unfold bind at 1. unfold ret at 1.
    unfold rd_kafka_topic_partition_list_add.
    unfold bind at 1.
    run (load_consumer_run _ _ _ Hc).
    rewrite Hl. cbn [nonnull]. unfold bind at 1, ret at 1.
    unfold native, store_consumer, modify, bind.
    cbn [set_calls consumers].
    match goal with |- context [subscribe_loop p _ ?w1] =>
      destruct (IH w1 p (with_topics c (l ++ [(c_str t, -1)]))
                  (l ++ [(c_str t, -1)]))
        as (w' & Hrun & Hc' & Hb & Hlib & Hf & Hcalls) end.
    + cbn. apply list_lookup_insert_eq. eapply lookup_lt_Some, Hc.
    + reflexivity.
    + exists w'. unfold named in Hrun. rewrite Hrun.
      repeat split; try assumption.
      * rewrite Hc'. cbn [listed map]. unfold with_topics. cbn.
        now rewrite <- app_assoc.
      * rewrite Hcalls. cbn. now rewrite <- app_assoc.
Qed.

(** One call: the names are appended and the whole list is subscribed,
    whatever librdkafka answers. *)
Lemma subscribe_run (w : world) (h : lua_value) (c : consumer_t) (rk : nat)
    (names : list (lua_value * string)) :
  consumer_handle w h = Some c ->
  rd_consumer c = Some rk ->
  (forall e, strlen (rd_kafka_err2str (lib w) e) < 512) ->
  let l := default [] (topics c) ++ listed names in
  exists w' v,
    lua_consumer_subscribe [h; LTable (named names)] w = (Ret v, w') /\
    consumer_handle w' h = Some (with_topics c l) /\
    lib w' = lib w /\
    facades w' = facades w /\
    last (calls w') = Some (Subscribe rk l).
Proof.
  intros Hh Hrk Hfit l.
  destruct (consumer_handle_inv _ _ _ Hh) as (box & p & -> & Hbox & Hc).
  unfold lua_consumer_subscribe.
  cbn [lua_gettop List.length Nat.eqb negb lua_arg nth Nat.sub lua_istable orb
       table_entries].
  rewrite (bind_run (lua_check_consumer _ 1) _ w w p)
    by (eapply lua_check_consumer_run; [reflexivity | exact Hbox]).
  run (load_consumer_run _ _ _ Hc).
  (* the list exists once the first lines are through *)
  assert (Hready : exists w0,
    (match topics c with
     | None =>
         bind (rd_kafka_topic_partition_list_new sizeof_pointer)
           (fun l0 => store_consumer p (with_topics c l0))
     | Some _ => ret tt
     end) w = (Ret tt, w0) /\
    consumers w0 !! p = Some (Some (with_topics c (default [] (topics c)))) /\
    consumer_boxes w0 = consumer_boxes w /\ lib w0 = lib w /\
    facades w0 = facades w).
  { destruct (topics c) as [l0|] eqn:Hl.
    - exists w. repeat split; try reflexivity.
      rewrite Hc. destruct c; cbn in *. now subst.
    - eexists. split; [reflexivity|]. cbn. repeat split.
      apply list_lookup_insert_eq. eapply lookup_lt_Some, Hc. }
  destruct Hready as (w0 & Hrun0 & Hc0 & Hb0 & Hlib0 & Hf0).
  run Hrun0.
  destruct (subscribe_loop_run names w0 p _ _ Hc0 eq_refl)
    as (w1 & Hrun1 & Hc1 & Hb1 & Hlib1 & Hf1 & Hcalls1).
  run Hrun1.
  run (load_consumer_run _ _ _ Hc1).
  cbn [with_topics rd_consumer topics]. rewrite Hrk. cbn [nonnull].
  unfold bind at 1, ret at 1. unfold bind at 1, ret at 1.
  unfold rd_kafka_subscribe, native, modify, get, bind, ret.
  cbn [set_calls lib]. rewrite Hlib1, Hlib0.
  assert (Hafter : forall w2, consumers w2 = consumers w1 ->
            consumer_boxes w2 = consumer_boxes w1 ->
            consumer_handle w2 (LUserdata consumer_label box)
            = Some (with_topics c l)).
  { intros w2 E1 E2. unfold consumer_handle.
    rewrite E2, Hb1, Hb0, Hbox, E1, Hc1. reflexivity. }
  destruct (subscribe_reply (lib w) (default [] (topics c) ++ listed names)
            =? RD_KAFKA_RESP_ERR_NO_ERROR).
  - eexists _, _. split; [reflexivity|]. cbn.
    repeat split; try congruence.
    + now apply Hafter.
    + apply last_snoc.
  - unfold strcpy. cbn [lib].
    match goal with |- context [strlen ?s + 1 <=? 512] =>
      assert (Hle : (strlen s + 1 <=? 512) = true) end.
    { apply Z.leb_le. cbn [lib set_calls]. rewrite ?Hlib1, ?Hlib0.
      specialize (Hfit
        (subscribe_reply (lib w) (default [] (topics c) ++ listed names))).
      lia. }
    rewrite Hle. eexists _, _. split; [reflexivity|]. cbn.
    repeat split; try congruence.
    + now apply Hafter.
    + apply last_snoc.
Qed.

Lemma Consumer_subscribe_run (w : world) (self : nat) (s : Consumer)
    (c : consumer_t) (t : lua_value) :
  facades w !! self = Some s ->
  consumer_handle w (_consumer s) = Some c ->
  Consumer_subscribe self t w = lua_consumer_subscribe [_consumer s; t] w.
Proof.
  intros Hs Hh. unfold Consumer_subscribe.
  run (load_facade_run _ _ _ Hs).
  destruct (consumer_handle_inv _ _ _ Hh) as (box & p & -> & _). reflexivity.
Qed.

(** C3. [subscribe] accumulates: after [subscribe({t1})] and then
    [subscribe({t2})] on a consumer, the subscription list it holds is the
    one it had before followed by t1 and t2, and that whole list is what
    the second call hands to [rd_kafka_subscribe]. *)
Theorem subscribe_accumulates (w : world) (self : nat) (s : Consumer)
    (c : consumer_t) (rk : nat) (k1 k2 : lua_value) (t1 t2 : string) :
  facades w !! self = Some s ->
  consumer_handle w (_consumer s) = Some c ->
  rd_consumer c = Some rk ->
  nul_free t1 = true -> nul_free t2 = true ->
  (forall e, strlen (rd_kafka_err2str (lib w) e) < 512) ->
  let r1 := Consumer_subscribe self (LTable [(k1, LString t1)]) w in
  let r2 := Consumer_subscribe self (LTable [(k2, LString t2)]) (snd r1) in
  let l := default [] (topics c) ++ [(t1, -1); (t2, -1)] in
  (exists v1 v2, fst r1 = Ret v1 /\ fst r2 = Ret v2) /\
  consumer_handle (snd r2) (_consumer s) = Some (with_topics c l) /\
  last (calls (snd r2)) = Some (Subscribe rk l).
Proof.
  intros Hs Hh Hrk Ht1 Ht2 Hfit r1 r2 l.
  destruct (subscribe_run w (_consumer s) c rk [(k1, t1)] Hh Hrk Hfit)
    as (w1 & v1 & Hrun1 & Hh1 & Hlib1 & Hf1 & _).
  assert (Hfit1 : forall e, strlen (rd_kafka_err2str (lib w1) e) < 512)
    by (now rewrite Hlib1).
  destruct (subscribe_run w1 (_consumer s) _ rk [(k2, t2)] Hh1 Hrk Hfit1)
    as (w2 & v2 & Hrun2 & Hh2 & _ & _ & Hcalls2).
  assert (E1 : r1 = (Ret v1, w1)).
  { subst r1. rewrite (Consumer_subscribe_run _ _ _ _ _ Hs Hh). exact Hrun1. }
  assert (E2 : r2 = (Ret v2, w2)).
  { subst r2. rewrite E1. cbn [snd].
    assert (Hs1 : facades w1 !! self = Some s) by (now rewrite Hf1).
    rewrite (Consumer_subscribe_run w1 self s _ _ Hs1 Hh1).
    exact Hrun2. }
  cbn [with_topics topics from_option id listed map snd] in Hh2, Hcalls2.
  rewrite (c_str_nul_free _ Ht1), (c_str_nul_free _ Ht2), <- app_assoc
    in Hh2, Hcalls2.
  rewrite E2, E1. cbn [fst snd]. split; [now exists v1, v2|].
  split; [exact Hh2 | exact Hcalls2].
Qed.
(** *** Loop B *)

(** One turn on a non-empty script. *)
Lemma poll_msg_turn (w : world) (self ch q : nat)
    (x : option rd_kafka_event_t) (rest : list (option rd_kafka_event_t)) :
  drain_queue w self = Some (ch, q) ->
  record_queue w = x :: rest ->
  exists w', Consumer__poll_msg_turn self w = (Ret tt, w') /\
    drain_queue w' self = Some (ch, q) /\
    record_queue w' = rest /\
    sched w' = sched w ++ drain_trace ch (List.length (msg_boxes w)) [x] /\
    msgs w' = msgs w ++ fetched [x] /\
    msg_boxes w'
      = msg_boxes w
        ++ map Some (seq (List.length (msgs w)) (List.length (fetched [x]))).
Proof.
  intros Hq Hscript.
  pose proof Hq as Hq'.
  apply drain_queue_inv in Hq'
    as (s & box & p & c & Hs & Hud & Hch & Hbox & Hc & Hmq).
  unfold Consumer__poll_msg_turn.
  rewrite (bind_run _ _ _ _ _ (load_facade_run _ _ _ Hs)). rewrite Hud.
  change (method_call "_consumer" (LUserdata consumer_label box) "poll_msg" [])
    with (lua_consumer_poll_msg [LUserdata consumer_label box]).
  unfold lua_consumer_poll_msg.
  cbn [lua_gettop List.length Nat.eqb negb].
  unfold bind at 1.
  run (lua_check_consumer_run w [LUserdata consumer_label box] 1 box p
         eq_refl Hbox).
  run (load_consumer_run _ _ _ Hc).
  rewrite Hmq.
  unfold nonnull, rd_kafka_queue_poll, native, modify, get, bind, ret.
  cbn [record_queue set_calls]. rewrite Hscript.
  assert (Hkeep : forall w', facades w' = facades w ->
            consumers w' = consumers w ->
            consumer_boxes w' = consumer_boxes w ->
            drain_queue w' self = Some (ch, q)).
  { intros w' E1 E2 E3. unfold drain_queue, consumer_handle.
    now rewrite E1, Hs, Hud, E3, Hbox, E2, Hc, Hmq, Hch. }
  destruct x as [ev|].
  - cbn [fetched drain_trace].
    destruct (rd_kafka_event_type ev =? RD_KAFKA_EVENT_FETCH).
    + cbn. eexists. split; [reflexivity|]. cbn. rewrite Hch, <- app_assoc.
      repeat split; try reflexivity. now apply Hkeep.
    + cbn. eexists. split; [reflexivity|]. cbn.
      rewrite <- ?app_assoc, !app_nil_r.
      repeat split; try reflexivity. now apply Hkeep.
  - cbn. eexists. split; [reflexivity|]. cbn. rewrite !app_nil_r.
    repeat split; try reflexivity. now apply Hkeep.
Qed.

Lemma fetched_app (a b : list (option rd_kafka_event_t)) :
  fetched (a ++ b) = fetched a ++ fetched b.
Proof.
  induction a as [|[ev|] a IH]; cbn; [reflexivity | | exact IH].
  destruct (rd_kafka_event_type ev =? RD_KAFKA_EVENT_FETCH); cbn;
    now rewrite IH.
Qed.

(** Loop B on a script of poll results: what it hands to the scheduler and
    what it leaves on the heap. *)
Lemma poll_msg_run (script : list (option rd_kafka_event_t)) :
  forall (w : world) (self ch q : nat),
  drain_queue w self = Some (ch, q) ->
  record_queue w = script ->
  exists w', Consumer__poll_msg (List.length script) self w = (Ret tt, w') /\
    drain_queue w' self = Some (ch, q) /\
    record_queue w' = [] /\
    sched w' = sched w ++ drain_trace ch (List.length (msg_boxes w)) script /\
    msgs w' = msgs w ++ fetched script /\
    msg_boxes w'
      = msg_boxes w
        ++ map Some (seq (List.length (msgs w)) (List.length (fetched script))).
Proof.
  induction script as [|x rest IH]; intros w self ch q Hq Hscript.
  - exists w. cbn. rewrite !app_nil_r. now repeat split.
  - destruct (poll_msg_turn w self ch q x rest Hq Hscript)
      as (w1 & Hturn & Hq1 & Hrest & Hsched & Hmsgs & Hboxes).
    destruct (IH w1 self ch q Hq1 Hrest)
      as (w2 & Hrun & Hq2 & Hempty & Hsched2 & Hmsgs2 & Hboxes2).
    exists w2. cbn [Consumer__poll_msg List.length].
    rewrite (bind_run _ _ _ _ _ Hturn), Hrun.
    repeat split; try assumption.
    + rewrite Hsched2, Hsched, Hboxes, <- app_assoc. f_equal.
      rewrite length_app, length_map, length_seq.
      destruct x as [ev|]; cbn; [|now rewrite Nat.add_0_r].
      destruct (rd_kafka_event_type ev =? RD_KAFKA_EVENT_FETCH); cbn.
      * now rewrite Nat.add_1_r.
      * now rewrite Nat.add_0_r.
    + rewrite Hmsgs2, Hmsgs, <- app_assoc. f_equal.
      change (x :: rest) with ([x] ++ rest). now rewrite fetched_app.
    + rewrite Hboxes2, Hboxes, Hmsgs, <- app_assoc. f_equal.
      change (x :: rest) with ([x] ++ rest).
      rewrite fetched_app, !length_app, seq_app, map_app. reflexivity.
Qed.

(** The handles Loop B creates resolve, in order, to what it built. *)
Lemma handles_resolve (w : world) (boxes : list (option nat))
    (old new : list msg_t) :
  msg_boxes w
    = boxes ++ map Some (seq (List.length old) (List.length new)) ->
  msgs w = old ++ new ->
  map (message_handle w)
      (map (LUserdata consumer_msg_label)
           (seq (List.length boxes) (List.length new)))
  = map Some new.
Proof.
  intros Hboxes Hmsgs. apply list_eq. intros i.
  rewrite !list_lookup_fmap.
  destruct (decide (i < List.length new)%nat) as [Hi | Hi].
  - rewrite lookup_seq_lt by exact Hi. cbn.
    rewrite Hboxes, lookup_app_r by lia.
    replace (List.length boxes + i - List.length boxes)%nat with i by lia.
    rewrite list_lookup_fmap, lookup_seq_lt by exact Hi. cbn.
    rewrite Hmsgs, lookup_app_r by lia.
    replace (List.length old + i - List.length old)%nat with i by lia.
    destruct (lookup_lt_is_Some_2 new i Hi) as [x Hx]. now rewrite Hx.
  - rewrite lookup_seq_ge by lia. cbn.
    rewrite (lookup_ge_None_2 new i) by lia. reflexivity.
Qed.

Lemma channel_contents_drain_trace (ch next : nat)
    (script : list (option rd_kafka_event_t)) :
  channel_contents ch (drain_trace ch next script)
  = map (LUserdata consumer_msg_label)
        (seq next (List.length (fetched script))).
Proof.
  revert next. induction script as [|[ev|] rest IH]; intros next; cbn.
  - reflexivity.
  - destruct (rd_kafka_event_type ev =? RD_KAFKA_EVENT_FETCH); cbn.
    + rewrite Nat.eqb_refl, IH. reflexivity.
    + apply IH.
  - apply IH.
Qed.

Lemma drain_trace_one_record (ch next : nat)
    (polls : list (option rd_kafka_message_t)) :
  drain_trace ch next (map (option_map one_record) polls)
  = forwarding ch next polls.
Proof.
  revert next. induction polls as [|[m|] rest IH]; intros next; cbn;
    [reflexivity | |]; now rewrite IH.
Qed.

Lemma fetched_one_record (polls : list (option rd_kafka_message_t)) :
  fetched (map (option_map one_record) polls)
  = map (fun m => {| rd_message := Some m; rd_event := one_record m |})
        (records polls).
Proof.
  induction polls as [|[m|] rest IH]; cbn; [reflexivity | | exact IH].
  now rewrite IH.
Qed.

(** The records behind the handles Loop B has put on its channel. *)
Lemma poll_msg_run_records (script : list (option rd_kafka_event_t))
    (w : world) (self ch q : nat) :
  drain_queue w self = Some (ch, q) ->
  record_queue w = script ->
  let r := Consumer__poll_msg (List.length script) self w in
  let trace := drain_trace ch (List.length (msg_boxes w)) script in
  fst r = Ret tt /\
  sched (snd r) = sched w ++ trace /\
  map (message_handle (snd r)) (channel_contents ch trace)
  = map Some (fetched script).
Proof.
  intros Hq Hscript r trace.
  destruct (poll_msg_run script w self ch q Hq Hscript)
    as (w' & Hrun & _ & _ & Hsched & Hmsgs & Hboxes).
  subst r. rewrite Hrun. cbn [fst snd]. repeat split; [exact Hsched|].
  subst trace. rewrite channel_contents_drain_trace.
  now apply handles_resolve with (old := msgs w).
Qed.

(** C4. When each poll of the record queue answers either no data or one
    fetched record (alternating or in any other order), Loop B puts a
    handle on exactly those records on the output channel, in the order of
    the polls; it sleeps 10 ms after a poll without data and only then, and
    it yields after each put. *)
Theorem drain_forwards_records_in_order (w : world) (self ch q : nat)
    (polls : list (option rd_kafka_message_t)) :
  drain_queue w self = Some (ch, q) ->
  record_queue w = map (option_map one_record) polls ->
  let r := Consumer__poll_msg (List.length polls) self w in
  let trace := forwarding ch (List.length (msg_boxes w)) polls in
  fst r = Ret tt /\
  sched (snd r) = sched w ++ trace /\
  map (record_of (snd r)) (channel_contents ch trace)
  = map Some (records polls).
Proof.
  intros Hq Hscript r trace.
  pose proof (poll_msg_run_records _ w self ch q Hq Hscript) as H.
  cbv zeta in H. rewrite length_map, drain_trace_one_record in H.
  destruct H as (Hret & Hsched & Hhandles).
  repeat split; [exact Hret | exact Hsched |].
  unfold record_of.
  change (fun h => match message_handle r.2 h with
                   | Some msg => rd_message msg | None => None end)
    with (fun h => message_handle r.2 h ≫= rd_message).
  rewrite <- (map_map (message_handle (snd r)) (fun o => o ≫= rd_message)).
  subst r trace. rewrite Hhandles, fetched_one_record, !map_map. reflexivity.
Qed.

(** Releasing a live handle destroys the event it owns and empties the
    handle. *)
Lemma msg_gc_run (w : world) (h : lua_value) (msg : msg_t) :
  message_handle w h = Some msg ->
  let g := lua_consumer_msg_gc [h] w in
  fst g = Ret [] /\
  calls (snd g) = calls w ++ [Event_destroy (rd_event msg)] /\
  message_handle (snd g) h = None.
Proof.
  unfold message_handle.
  destruct h as [| | | | |[] box| | |]; try discriminate.
  destruct (msg_boxes w !! box) as [[p|]|] eqn:Hbox; try discriminate.
  intros Hmsg. unfold lua_consumer_msg_gc, luaL_checkudata.
  cbn [lua_arg nth Nat.sub]. unfold bind, get, ret.
  rewrite Hbox, Hmsg. cbn. repeat split.
  rewrite list_lookup_insert_eq; [reflexivity|].
  eapply lookup_lt_Some, Hbox.
Qed.

(** C9. When a poll answers a fetched event with more than one record, the
    handle Loop B puts on the channel for that turn is on the first record
    and owns the event; the later turns put only what the later polls
    fetched, so the other records of the event are not delivered; and
    releasing the handle destroys the event. *)
Theorem only_first_record_of_event_delivered (w : world) (self ch q : nat)
    (ev : rd_kafka_event_t) (m1 m2 : rd_kafka_message_t)
    (more : list rd_kafka_message_t)
    (script : list (option rd_kafka_event_t)) :
  drain_queue w self = Some (ch, q) ->
  rd_kafka_event_type ev = RD_KAFKA_EVENT_FETCH ->
  event_messages ev = m1 :: m2 :: more ->
  record_queue w = Some ev :: script ->
  let h := LUserdata consumer_msg_label (List.length (msg_boxes w)) in
  let r := Consumer__poll_msg (S (List.length script)) self w in
  let trace := drain_trace ch (S (List.length (msg_boxes w))) script in
  fst r = Ret tt /\
  sched (snd r) = sched w ++ Channel_put ch h :: Fiber_yield :: trace /\
  message_handle (snd r) h = Some {| rd_message := Some m1; rd_event := ev |} /\
  map (message_handle (snd r)) (channel_contents ch trace)
  = map Some (fetched script) /\
  let g := lua_consumer_msg_gc [h] (snd r) in
  fst g = Ret [] /\
  calls (snd g) = calls (snd r) ++ [Event_destroy ev] /\
  message_handle (snd g) h = None.
Proof.
  intros Hq Hfetch Hrecords Hscript h r trace.
  pose proof (poll_msg_run_records _ w self ch q Hq Hscript) as H.
  cbv zeta in H.
  change (Consumer__poll_msg (List.length (Some ev :: script)) self w)
    with r in H.
  clearbody r. cbn [drain_trace fetched] in H.
  rewrite Hfetch in H. cbn [Z.eqb Pos.eqb RD_KAFKA_EVENT_FETCH] in H.
  cbn [channel_contents] in H. rewrite Nat.eqb_refl in H.
  unfold rd_kafka_event_message_next in H.
  rewrite Hrecords in H. cbn [head map] in H.
  destruct H as (Hret & Hsched & Hhandles).
  injection Hhandles as Hh Hrest.
  destruct (msg_gc_run (snd r) h _ Hh) as (Hg1 & Hg2 & Hg3).
  repeat split; assumption.
Qed.

(** *** Close *)

(** A failed [rd_kafka_consumer_close] ends [consumer_close] at once. *)
Lemma consumer_close_error_run (w : world) (p : nat) (c : consumer_t)
    (rk : nat) :
  consumers w !! p = Some (Some c) ->
  rd_consumer c = Some rk ->
  consumer_close_reply (lib w) <> RD_KAFKA_RESP_ERR_NO_ERROR ->
  let r := consumer_close p w in
  fst r = Ret (consumer_close_reply (lib w)) /\
  consumers (snd r) = consumers w /\
  calls (snd r)
  = calls w
    ++ match rd_msg_queue c with Some q => [Queue_destroy q] | None => [] end
    ++ [Kafka_consumer_close rk].
Proof.
  intros Hc Hrk Herr. apply Z.eqb_neq in Herr.
  unfold consumer_close.
  rewrite (bind_run _ _ _ _ _ (load_consumer_run _ _ _ Hc)). rewrite Hrk.
  unfold rd_kafka_consumer_close, when_nonnull, rd_kafka_queue_destroy,
    native, modify, get, bind, ret.
  destruct (rd_msg_queue c) as [q|]; cbn; rewrite Herr; cbn.
  - rewrite <- app_assoc. repeat split.
  - repeat split.
Qed.

(** After a close that went through, the userdata still holds the freed
    pointer, and a second close reads the freed struct. *)
Lemma close_twice_uses_freed_handle (w : world) (box p : nat)
    (c : consumer_t) :
  consumer_boxes w !! box = Some (Some p) ->
  consumers w !! p = Some (Some c) ->
  consumer_close_reply (lib w) = RD_KAFKA_RESP_ERR_NO_ERROR ->
  let h := LUserdata consumer_label box in
  let r1 := lua_consumer_close [h] w in
  fst r1 = Ret [LBoolean true] /\
  fst (lua_consumer_close [h] (snd r1)) = Fault Use_after_free /\
  fst (lua_consumer_gc [h] (snd r1)) = Fault Use_after_free.
Proof.
  intros Hbox Hc Hok h r1.
  assert (Hfirst : exists w1, r1 = (Ret [LBoolean true], w1) /\
            consumer_boxes w1 = consumer_boxes w /\
            consumers w1 = <[p := None]> (consumers w)).
  { subst r1. unfold lua_consumer_close, luaL_checkudata.
    cbn [h lua_arg nth Nat.sub]. unfold bind at 1, ret at 1.
    unfold bind at 1, get at 1. rewrite Hbox.
    unfold consumer_close.
    unfold bind at 1.
    run (load_consumer_run _ _ _ Hc).
    unfold rd_kafka_consumer_close, when_nonnull, rd_kafka_queue_destroy,
      rd_kafka_topic_partition_list_destroy, free_consumer,
      native, modify, get, bind, ret.
    destruct (rd_msg_queue c), (rd_consumer c), (rd_event_queue c), (topics c);
      cbn; rewrite ?Hok; cbn; eexists; repeat split. }
  destruct Hfirst as (w1 & -> & Hbox1 & Hc1). cbn [fst snd].
  assert (Hfreed : consumers w1 !! p = Some None).
  { rewrite Hc1. apply list_lookup_insert_eq. eapply lookup_lt_Some, Hc. }
  repeat split.
  - unfold lua_consumer_close, luaL_checkudata, consumer_close, load_consumer.
    cbn [h lua_arg nth Nat.sub]. unfold bind, get, ret.
    now rewrite Hbox1, Hbox, Hfreed.
  - unfold lua_consumer_gc, luaL_checkudata, consumer_close, load_consumer.
    cbn [h lua_arg nth Nat.sub]. unfold bind, get, ret.
    now rewrite Hbox1, Hbox, Hfreed.
Qed.

(** Closing the native consumer leaves the scheduler and the facades
    alone. *)
Lemma quiet_consumer_close (p : nat) : quiet (consumer_close p).
Proof.
  unfold consumer_close, load_consumer, when_nonnull, rd_kafka_queue_destroy,
    rd_kafka_consumer_close, rd_kafka_topic_partition_list_destroy.
  apply quiet_bind.
  { apply quiet_bind; [auto with quiet | intros w0].
    quiet_cases; auto with quiet. }
  intros c. apply quiet_bind; [quiet_cases; auto with quiet | intros _].
  apply quiet_bind; [quiet_cases; auto 6 with quiet | intros err].
  quiet_cases; [auto with quiet|].
  repeat (apply quiet_bind; [quiet_cases; auto with quiet | intros ?]).
  all: try solve [auto with quiet | intros w; now split].
Qed.

Lemma quiet_lua_consumer_close (L : list lua_value) :
  quiet (lua_consumer_close L).
Proof.
  unfold lua_consumer_close, luaL_checkudata.
  apply quiet_bind.
  { destruct (lua_arg L 1) as [| | | | |[] box| | |]; auto with quiet. }
  intros box. apply quiet_bind; [auto with quiet | intros w0].
  destruct (consumer_boxes w0 !! box) as [[p|]|]; auto with quiet.
  apply quiet_bind; [apply quiet_consumer_close | intros err].
  quiet_cases; auto with quiet.
  apply quiet_bind; [auto with quiet | intros w1].
  apply quiet_bind; [unfold strcpy; quiet_cases; auto with quiet | intros s].
  auto with quiet.
Qed.

(** Once [Consumer:close] has returned, calling it again raises: the field
    [_consumer] is nil. *)
Lemma close_twice_raises (w w1 : world) (self : nat) (v : list lua_value) :
  Consumer_close self w = (Ret v, w1) ->
  fst (Consumer_close self w1) = Raise (Index_error "_consumer" LNil).
Proof.
  unfold Consumer_close at 1.
  destruct (facades w !! self) as [s|] eqn:Hs;
    [|unfold load_facade, bind, get; now rewrite Hs].
  run (load_facade_run _ _ _ Hs).
  destruct (_poll_msg_fiber s) as [f2|] eqn:Hf2; [|discriminate].
  destruct (_poll_fiber s) as [f1|] eqn:Hf1; [|discriminate].
  unfold fiber_cancel, schedule, modify. unfold bind at 1. unfold bind at 1.
  unfold bind at 1. unfold bind at 1.
  match goal with |- context [method_call ?f ?o ?n ?a ?w0] =>
    pose proof (H := quiet_lua_consumer_close (o :: a) w0);
    assert (Hq : facades (snd (method_call f o n a w0)) = facades w0)
  end.
  { destruct (_consumer s) as [| | | | |[] box| | |]; try reflexivity.
    exact (proj2 H). }
  clear H.
  match goal with |- context [method_call ?f ?o ?n ?a ?w0] =>
    destruct (method_call f o n a w0) as [[r | e | f'] w2]
  end; try discriminate.
  cbn [snd set_sched facades] in Hq.
  assert (Hs2 : facades w2 !! self = Some s) by (now rewrite Hq).
  run (load_facade_run _ _ _ Hs2).
  unfold store_facade, modify, bind, ret. intros [= _ <-].
  unfold Consumer_close, load_facade, bind, get. cbn [facades set_facades].
  rewrite list_lookup_insert_eq by (eapply lookup_lt_Some, Hs2).
  cbn. rewrite Hf2, Hf1. reflexivity.
Qed.

(** *** Creation *)

Lemma quiet_options_loop (conf : nat) (entries : list (lua_value * lua_value)) :
  quiet (options_loop conf entries).
Proof.
  induction entries as [|[k v] rest IH]; cbn [options_loop];
    [auto with quiet|].
  quiet_cases; [auto 6 with quiet|].
  do 3 (apply quiet_bind; [auto 6 with quiet | intros ?]).
  quiet_cases; [auto 6 with quiet|].
  destruct k; auto with quiet.
Qed.

Lemma quiet_rd_kafka_new (conf : nat) : quiet (rd_kafka_new conf).
Proof.
  unfold rd_kafka_new. apply quiet_bind; [auto with quiet | intros w0].
  quiet_cases; auto 6 with quiet.
Qed.

Lemma quiet_malloc_consumer (c : consumer_t) : quiet (malloc_consumer c).
Proof. intros w. now split. Qed.

Lemma quiet_new_consumer_userdata (p : nat) : quiet (new_consumer_userdata p).
Proof. intros w. now split. Qed.

#[local] Hint Resolve quiet_options_loop quiet_rd_kafka_new
  quiet_malloc_consumer quiet_new_consumer_userdata : quiet.


(** The options loop applies string pairs that librdkafka accepts and goes
    on with the rest of the table. *)
Lemma options_loop_accepted (conf : nat) (accepted : list (string * string)) :
  forall (w : world) (rest : list (lua_value * lua_value)),
  (forall name value, In (name, value) accepted ->
     conf_set_reply (lib w) (c_str name) (c_str value) = None) ->
  exists w', options_loop conf (string_pairs accepted ++ rest) w
             = options_loop conf rest w' /\
    lib w' = lib w /\
    calls w'
    = calls w
      ++ map (fun e => Conf_set conf (c_str (fst e)) (c_str (snd e))) accepted.
Proof.
  induction accepted as [|[name value] more IH]; intros w rest Hok.
  - exists w. cbn. now rewrite app_nil_r.
  - cbn [string_pairs map app options_loop fst snd lua_isstring negb orb
         lua_tostring nonnull].
    unfold bind at 1, ret at 1. unfold bind at 1, ret at 1.
    unfold rd_kafka_conf_set, native, modify, get, bind, ret.
    cbn [set_calls lib]. rewrite (Hok name value (or_introl eq_refl)).
    match goal with |- context [options_loop conf _ ?w1] =>
      destruct (IH w1 rest) as (w' & Hrun & Hlib & Hcalls) end.
    { intros n v Hin. cbn. apply Hok. now right. }
    exists w'. unfold string_pairs in Hrun. rewrite Hrun.
    repeat split; [exact Hlib|]. rewrite Hcalls. cbn. now rewrite <- app_assoc.
Qed.

Lemma lua_tostring_isstring (v : lua_value) :
  lua_tostring v = None <-> lua_isstring v = false.
Proof. destruct v; cbn; split; congruence. Qed.

Lemma native_run (c : native_call) (w : world) :
  native c w = (Ret tt, set_calls (fun l => l ++ [c]) w).
Proof. reflexivity. Qed.

Lemma rd_kafka_conf_new_run (w : world) :
  rd_kafka_conf_new w
  = (Ret (List.length (calls w)),
     set_calls (fun l => l ++ [Conf_new (List.length (calls w))]) w).
Proof. reflexivity. Qed.

Lemma rd_kafka_topic_conf_new_run (w : world) :
  rd_kafka_topic_conf_new w
  = (Ret (List.length (calls w)),
     set_calls (fun l => l ++ [Topic_conf_new (List.length (calls w))]) w).
Proof. reflexivity. Qed.

(** C2, amended. A configuration whose [brokers] entry is missing, or is
    neither a string nor a number, makes [create_consumer] return nil and
    the configuration error without any call into librdkafka.  With a
    usable [brokers], an [options] table that holds string pairs which
    librdkafka accepts and then an entry whose key or value is neither a
    string nor a number makes it return nil and the options error; by then
    the native configuration and topic configuration have been created and
    the earlier options applied, and no client has been constructed. *)
Theorem config_errors_and_allocation (w : world)
    (conf : list (lua_value * lua_value)) :
  (lua_isstring (lua_getfield conf "brokers") = false ->
   lua_create_consumer [LTable conf] w
   = (Ret [LNil;
           LString brokers_error],
      w)) /\
  (forall (accepted : list (string * string)) (k v : lua_value)
          (rest : list (lua_value * lua_value)),
   lua_isstring (lua_getfield conf "brokers") = true ->
   lua_getfield conf "options"
   = LTable (string_pairs accepted ++ (k, v) :: rest) ->
   (forall name value, In (name, value) accepted ->
      conf_set_reply (lib w) (c_str name) (c_str value) = None) ->
   lua_isstring k = false \/ lua_isstring v = false ->
   let r := lua_create_consumer [LTable conf] w in
   let rd_config := List.length (calls w) in
   fst r
   = Ret [LNil;
          LString options_error] /\
   calls (snd r)
   = calls w
     ++ [Conf_new rd_config; Topic_conf_new (S rd_config);
         Conf_set_default_topic_conf rd_config (S rd_config)]
     ++ map (fun e => Conf_set rd_config (c_str (fst e)) (c_str (snd e)))
            accepted).
Proof.
  split.
  - intros Hb. apply lua_tostring_isstring in Hb.
    unfold lua_create_consumer.
    cbn [lua_gettop List.length Nat.eqb negb lua_arg nth Nat.sub lua_istable
         orb table_entries].
    now rewrite Hb.
  - intros accepted k v rest Hb Hopts Hok Hbad r rd_config.
    destruct (lua_tostring (lua_getfield conf "brokers")) as [brokers|] eqn:E;
      [|apply lua_tostring_isstring in E; congruence].
    enough (Hrun' : exists w',
              lua_create_consumer [LTable conf] w
              = (Ret [LNil;
                      LString options_error],
                 w') /\
              calls w'
              = calls w
                ++ [Conf_new rd_config; Topic_conf_new (S rd_config);
                    Conf_set_default_topic_conf rd_config (S rd_config)]
                ++ map (fun e => Conf_set rd_config (c_str (fst e))
                                          (c_str (snd e))) accepted).
    { destruct Hrun' as (w' & Hrun' & Hcalls). subst r. rewrite Hrun'.
      split; [reflexivity | exact Hcalls]. }
    unfold lua_create_consumer.
    cbn [lua_gettop List.length Nat.eqb negb lua_arg nth Nat.sub lua_istable
         orb table_entries].
    rewrite E, Hopts. cbn [lua_istable table_entries].
    run (rd_kafka_conf_new_run w).
    run (rd_kafka_topic_conf_new_run _).
    unfold rd_kafka_conf_set_default_topic_conf.
    run (native_run _ _).
    cbn [set_calls calls].
    match goal with |- context [bind (options_loop ?c _) _ ?w1] =>
      destruct (options_loop_accepted c accepted w1 ((k, v) :: rest))
        as (w' & Hrun & Hlib & Hcalls) end.
    { intros n val Hin. cbn. now apply Hok. }
    unfold bind at 1. rewrite Hrun. cbn [options_loop].
    assert (Hcheck : negb (lua_isstring v) || negb (lua_isstring k) = true).
    { destruct Hbad as [-> | ->]; cbn; [apply orb_true_r | reflexivity]. }
    rewrite Hcheck. cbn. exists w'. split; [reflexivity|].
    rewrite Hcalls. cbn. rewrite length_app, Nat.add_1_r.
    fold rd_config. rewrite <- !app_assoc. reflexivity.
Qed.









(** *** Further properties of the bridge and the facade *)

(** The box of a message handle, when the handle is live. *)
Lemma message_handle_inv (w : world) (h : lua_value) (msg : msg_t) :
  message_handle w h = Some msg ->
  exists box p,
    h = LUserdata consumer_msg_label box /\
    msg_boxes w !! box = Some (Some p) /\
    msgs w !! p = Some msg.
Proof.
  unfold message_handle.
  destruct h as [| | | | |[] box| | |]; try discriminate.
  destruct (msg_boxes w !! box) as [[p|]|] eqn:Hbox; try discriminate.
  intros Hp. now exists box, p.
Qed.

(** X1. The finalizer of a message handle clears the handle, so running it
    a second time changes nothing: no event is destroyed twice and the
    state after the second run is the state before it. *)
Theorem msg_gc_twice_is_noop (w : world) (h : lua_value) (msg : msg_t) :
  message_handle w h = Some msg ->
  let w1 := snd (lua_consumer_msg_gc [h] w) in
  lua_consumer_msg_gc [h] w1 = (Ret [], w1).
Proof.
  intros Hh. destruct (message_handle_inv _ _ _ Hh) as (box & p & -> & Hbox & Hp).
  assert (Hlt : (box < List.length (msg_boxes w))%nat)
    by (eapply lookup_lt_Some, Hbox).
  unfold lua_consumer_msg_gc, luaL_checkudata.
  cbn [lua_arg nth Nat.sub]. unfold bind, get, ret, rd_kafka_event_destroy, modify.
  rewrite Hbox, Hp. cbn.
  rewrite list_lookup_insert_eq by exact Hlt. cbn.
  unfold set_msg_boxes. cbn. now rewrite list_insert_insert_eq.
Qed.

(** A released handle fails the check of every function that takes it. *)
Lemma check_released (w : world) (L : list lua_value) (i box : nat) :
  lua_arg L i = LUserdata consumer_msg_label box ->
  msg_boxes w !! box = Some None ->
  lua_check_consumer_msg L i w = (Raise (Error_msg fatal_message_error), w).
Proof.
  intros HL Hbox. unfold lua_check_consumer_msg, luaL_checkudata, bind, get.
  rewrite HL. cbn. now rewrite Hbox.
Qed.

(** X2. Once the finalizer of a message handle has run, every function
    that takes the handle (the five accessors, the debug string and
    [store_offset]) raises the fatal error of [lua_check_consumer_msg]
    and leaves the state as it is. *)
Theorem released_handle_raises (w : world) (h c : lua_value) (msg : msg_t) :
  message_handle w h = Some msg ->
  let w1 := snd (lua_consumer_msg_gc [h] w) in
  let fatal := (Raise (Error_msg fatal_message_error), w1) in
  lua_consumer_msg_topic [h] w1 = fatal /\
  lua_consumer_msg_partition [h] w1 = fatal /\
  lua_consumer_msg_offset [h] w1 = fatal /\
  lua_consumer_msg_key [h] w1 = fatal /\
  lua_consumer_msg_value [h] w1 = fatal /\
  lua_consumer_msg_tostring [h] w1 = fatal /\
  lua_consumer_store_offset [c; h] w1 = fatal.
Proof.
  intros Hh w1 fatal.
  destruct (message_handle_inv _ _ _ Hh) as (box & p & -> & Hbox & Hp).
  assert (Hreleased : msg_boxes w1 !! box = Some None).
  { subst w1. unfold lua_consumer_msg_gc, luaL_checkudata.
    cbn [lua_arg nth Nat.sub]. unfold bind, get, ret, rd_kafka_event_destroy, modify.
    rewrite Hbox, Hp. cbn. apply list_lookup_insert_eq.
    eapply lookup_lt_Some, Hbox. }
  clearbody w1.
  assert (H1 : lua_check_consumer_msg [LUserdata consumer_msg_label box] 1 w1
               = (Raise (Error_msg fatal_message_error), w1))
    by (now apply check_released with (box := box)).
  assert (H2 : lua_check_consumer_msg [c; LUserdata consumer_msg_label box] 2 w1
               = (Raise (Error_msg fatal_message_error), w1))
    by (now apply check_released with (box := box)).
  unfold lua_consumer_msg_topic, lua_consumer_msg_partition,
    lua_consumer_msg_offset, lua_consumer_msg_key, lua_consumer_msg_value,
    lua_consumer_msg_tostring, lua_consumer_store_offset.
  cbn [lua_gettop List.length Nat.eqb negb].
  unfold bind. rewrite H1, H2. now repeat split.
Qed.

(** X3. [topic] copies the topic name into an array that has the size of
    a pointer: a name shorter than that is returned as it is, and a name
    of that length or longer overruns the array. *)
Theorem topic_fits_or_overflows (w : world) (h : lua_value)
    (m : rd_kafka_message_t) :
  record_of w h = Some m ->
  let name := rd_kafka_topic_name (rkt m) in
  (strlen name < sizeof_pointer ->
   lua_consumer_msg_topic [h] w = (Ret [LString (c_str name)], w)) /\
  (sizeof_pointer <= strlen name ->
   lua_consumer_msg_topic [h] w = (Fault Buffer_overflow, w)).
Proof.
  intros Hm name. unfold lua_consumer_msg_topic.
  rewrite (bind_check_record w [h] 1 m) by exact Hm.
  fold name. unfold strcpy, bind. split; intros Hlen.
  - destruct (Z.leb_spec (strlen name + 1) sizeof_pointer) as [_|]; [|lia].
    cbn. now rewrite c_str_idempotent.
  - destruct (Z.leb_spec (strlen name + 1) sizeof_pointer) as [|_]; [lia|].
    reflexivity.
Qed.





(** The native calls of one turn of Loop B. *)
Lemma poll_msg_turn_calls (w : world) (self ch q : nat)
    (x : option rd_kafka_event_t) (rest : list (option rd_kafka_event_t)) :
  drain_queue w self = Some (ch, q) ->
  record_queue w = x :: rest ->
  calls (snd (Consumer__poll_msg_turn self w)) = calls w ++ poll_calls q [x].
Proof.
  intros Hq Hscript.
  apply drain_queue_inv in Hq
    as (s & box & p & c & Hs & Hud & Hch & Hbox & Hc & Hmq).
  unfold Consumer__poll_msg_turn.
  run (load_facade_run _ _ _ Hs). rewrite Hud.
  change (method_call "_consumer" (LUserdata consumer_label box) "poll_msg" [])
    with (lua_consumer_poll_msg [LUserdata consumer_label box]).
  unfold lua_consumer_poll_msg.
  cbn [lua_gettop List.length Nat.eqb negb].
  unfold bind at 1.
  run (lua_check_consumer_run w [LUserdata consumer_label box] 1 box p
         eq_refl Hbox).
  run (load_consumer_run _ _ _ Hc).
  rewrite Hmq.
  unfold nonnull, rd_kafka_queue_poll, native, modify, get, bind, ret.
  cbn [record_queue set_calls]. rewrite Hscript.
  destruct x as [ev|]; cbn [poll_calls].
  - destruct (rd_kafka_event_type ev =? RD_KAFKA_EVENT_FETCH); cbn;
      [reflexivity | now rewrite <- app_assoc].
  - reflexivity.
Qed.

Lemma poll_calls_app (q : nat) (a b : list (option rd_kafka_event_t)) :
  poll_calls q (a ++ b) = poll_calls q a ++ poll_calls q b.
Proof.
  induction a as [|[ev|] a IH]; cbn; [reflexivity | | now rewrite IH].
  destruct (rd_kafka_event_type ev =? RD_KAFKA_EVENT_FETCH); cbn;
    now rewrite IH.
Qed.

Lemma poll_msg_run_calls (script : list (option rd_kafka_event_t)) :
  forall (w : world) (self ch q : nat),
  drain_queue w self = Some (ch, q) ->
  record_queue w = script ->
  calls (snd (Consumer__poll_msg (List.length script) self w))
  = calls w ++ poll_calls q script.
Proof.
  induction script as [|x rest IH]; intros w self ch q Hq Hscript.
  - cbn. now rewrite app_nil_r.
  - pose proof (poll_msg_turn_calls w self ch q x rest Hq Hscript) as Hcalls.
    destruct (poll_msg_turn w self ch q x rest Hq Hscript)
      as (w1 & Hturn & Hq1 & Hrest & _).
    rewrite Hturn in Hcalls. cbn [snd] in Hcalls.
    cbn [Consumer__poll_msg List.length]. run Hturn.
    rewrite (IH w1 self ch q Hq1 Hrest), Hcalls, <- app_assoc.
    change (x :: rest) with ([x] ++ rest). now rewrite poll_calls_app.
Qed.

(** X5. Loop B run over any script of poll results, one turn a result:
    it ends without error; the scheduler sees the trace of the script (a
    put and a yield for a fetched event, an error log and a sleep for any
    other event, a sleep for no event); the native calls are one poll a
    turn and the destruction of each event that is no fetch; and the
    handles on the channel are, in order, those of the fetched events. *)
Theorem drain_any_script (w : world) (self ch q : nat) :
  drain_queue w self = Some (ch, q) ->
  let script := record_queue w in
  let r := Consumer__poll_msg (List.length script) self w in
  let trace := drain_trace ch (List.length (msg_boxes w)) script in
  fst r = Ret tt /\
  sched (snd r) = sched w ++ trace /\
  calls (snd r) = calls w ++ poll_calls q script /\
  map (message_handle (snd r)) (channel_contents ch trace)
  = map Some (fetched script).
Proof.
  intros Hq script r trace.
  destruct (poll_msg_run_records script w self ch q Hq eq_refl)
    as (Hret & Hsched & Hhandles).
  repeat split; try assumption.
  exact (poll_msg_run_calls script w self ch q Hq eq_refl).
Qed.

(** X6. Loop B never touches the message handles that exist already: a
    handle that is live before the run holds the same message after it. *)
Theorem drain_keeps_handles (w : world) (self ch q : nat) (h : lua_value)
    (msg : msg_t) :
  drain_queue w self = Some (ch, q) ->
  message_handle w h = Some msg ->
  let r := Consumer__poll_msg (List.length (record_queue w)) self w in
  message_handle (snd r) h = Some msg.
Proof.
  intros Hq Hh r.
  destruct (poll_msg_run (record_queue w) w self ch q Hq eq_refl)
    as (w' & Hrun & _ & _ & _ & Hmsgs & Hboxes).
  subst r. rewrite Hrun. cbn [snd].
  unfold message_handle in *.
  destruct h as [| | | | |[] box| | |]; try discriminate.
  destruct (msg_boxes w !! box) as [[p|]|] eqn:Hbox; try discriminate.
  rewrite Hboxes, (lookup_app_l_Some _ _ _ _ Hbox).
  rewrite Hmsgs. now apply lookup_app_l_Some.
Qed.

(** One turn of Loop B on an empty queue. *)
Lemma poll_msg_turn_idle (w : world) (self ch q : nat) :
  drain_queue w self = Some (ch, q) ->
  record_queue w = [] ->
  exists w', Consumer__poll_msg_turn self w = (Ret tt, w') /\
    drain_queue w' self = Some (ch, q) /\
    record_queue w' = [] /\
    sched w' = sched w ++ [Fiber_sleep_ms 10] /\
    calls w' = calls w ++ [Queue_poll q 0] /\
    msgs w' = msgs w /\ msg_boxes w' = msg_boxes w.
Proof.
  intros Hq Hscript. pose proof Hq as Hq'.
  apply drain_queue_inv in Hq'
    as (s & box & p & c & Hs & Hud & Hch & Hbox & Hc & Hmq).
  unfold Consumer__poll_msg_turn.
  run (load_facade_run _ _ _ Hs). rewrite Hud.
  change (method_call "_consumer" (LUserdata consumer_label box) "poll_msg" [])
    with (lua_consumer_poll_msg [LUserdata consumer_label box]).
  unfold lua_consumer_poll_msg.
  cbn [lua_gettop List.length Nat.eqb negb].
  unfold bind at 1.
  run (lua_check_consumer_run w [LUserdata consumer_label box] 1 box p
         eq_refl Hbox).
  run (load_consumer_run _ _ _ Hc).
  rewrite Hmq.
  unfold nonnull, rd_kafka_queue_poll, native, modify, get, bind, ret.
  cbn [record_queue set_calls]. rewrite Hscript. cbn.
  eexists. split; [reflexivity|]. cbn.
  repeat split; assumption.
Qed.

(** X7. With nothing to poll, n turns of Loop B are n polls without
    waiting and n sleeps of 10 ms, and no message or handle is made. *)
Theorem drain_idle (n : nat) :
  forall (w : world) (self ch q : nat),
  drain_queue w self = Some (ch, q) ->
  record_queue w = [] ->
  let r := Consumer__poll_msg n self w in
  fst r = Ret tt /\
  calls (snd r) = calls w ++ replicate n (Queue_poll q 0) /\
  sched (snd r) = sched w ++ replicate n (Fiber_sleep_ms 10) /\
  msgs (snd r) = msgs w /\ msg_boxes (snd r) = msg_boxes w.
Proof.
  induction n as [|n IH]; intros w self ch q Hq Hempty.
  - cbn. rewrite !app_nil_r. now repeat split.
  - destruct (poll_msg_turn_idle w self ch q Hq Hempty)
      as (w1 & Hturn & Hq1 & Hempty1 & Hsched & Hcalls & Hmsgs & Hboxes).
    destruct (IH w1 self ch q Hq1 Hempty1) as (Hr & Hc & Hs & Hm & Hb).
    cbn [Consumer__poll_msg replicate]. cbv zeta. run Hturn.
    rewrite Hr, Hc, Hs, Hm, Hb, Hsched, Hcalls, Hmsgs, Hboxes, <- !app_assoc.
    now repeat split.
Qed.

(** One turn of Loop A. *)
Lemma poll_turn (w : world) (self rk : nat) :
  poll_client w self = Some rk ->
  exists w', Consumer__poll_turn self w = (Ret tt, w') /\
    poll_client w' self = Some rk /\
    coio_call_reply w' = coio_call_reply w /\
    msgs w' = msgs w /\ msg_boxes w' = msg_boxes w /\
    record_queue w' = record_queue w /\
    calls w'
    = calls w ++ (if coio_call_reply w =? -1 then [] else [Poll rk 1000]) /\
    sched w'
    = sched w ++ (if coio_call_reply w =? -1 then [Log_error poll_error]
                  else []).
Proof.
  unfold poll_client. intros Hrk.
  destruct (facades w !! self) as [s|] eqn:Hs; [|discriminate].
  destruct (consumer_handle w (_consumer s)) as [c|] eqn:Hh; [|discriminate].
  destruct (consumer_handle_inv _ _ _ Hh) as (box & p & Hud & Hbox & Hc).
  unfold Consumer__poll_turn.
  run (load_facade_run _ _ _ Hs). rewrite Hud.
  change (method_call "_consumer" (LUserdata consumer_label box) "poll" [])
    with (lua_consumer_poll [LUserdata consumer_label box]).
  unfold lua_consumer_poll.
  cbn [lua_gettop List.length Nat.eqb negb].
  unfold bind at 1.
  run (lua_check_consumer_run w [LUserdata consumer_label box] 1 box p
         eq_refl Hbox).
  run (load_consumer_run _ _ _ Hc).
  rewrite Hrk.
  unfold nonnull, coio_call, consumer_poll, rd_kafka_poll, native, schedule,
    modify, get, bind, ret.
  assert (Hkeep : forall w', facades w' = facades w ->
            consumers w' = consumers w ->
            consumer_boxes w' = consumer_boxes w ->
            match facades w' !! self with
            | Some s => match consumer_handle w' (_consumer s) with
                        | Some c => rd_consumer c
                        | None => None
                        end
            | None => None
            end = Some rk).
  { intros w' E1 E2 E3. unfold consumer_handle.
    now rewrite E1, Hs, Hud, E3, Hbox, E2, Hc. }
  destruct (coio_call_reply w =? -1); cbn.
  - eexists. split; [reflexivity|]. split; [now apply Hkeep|].
    cbn. rewrite app_nil_r. now repeat split.
  - eexists. split; [reflexivity|]. split; [now apply Hkeep|].
    cbn. rewrite app_nil_r. now repeat split.
Qed.

(** X8. n turns of Loop A on a facade with a live consumer end without
    error.  When the worker call goes through, they are n polls of
    1000 ms on the client and nothing is logged; when it fails, no poll
    is made and the error is logged n times.  Messages, handles and the
    record queue are left alone either way. *)
Theorem poll_loop (n : nat) :
  forall (w : world) (self rk : nat),
  poll_client w self = Some rk ->
  let r := Consumer__poll n self w in
  let failing := coio_call_reply w =? -1 in
  fst r = Ret tt /\
  calls (snd r)
  = calls w ++ (if failing then [] else replicate n (Poll rk 1000)) /\
  sched (snd r)
  = sched w ++ (if failing then replicate n (Log_error poll_error) else []) /\
  msgs (snd r) = msgs w /\ msg_boxes (snd r) = msg_boxes w /\
  record_queue (snd r) = record_queue w.
Proof.
  induction n as [|n IH]; intros w self rk Hrk.
  - cbn. destruct (coio_call_reply w =? -1); rewrite !app_nil_r;
      now repeat split.
  - destruct (poll_turn w self rk Hrk)
      as (w1 & Hturn & Hrk1 & Hcoio & Hmsgs & Hboxes & Hqueue & Hcalls
          & Hsched).
    destruct (IH w1 self rk Hrk1) as (Hr & Hc & Hs & Hm & Hb & Hq).
    cbn [Consumer__poll replicate]. cbv zeta. run Hturn.
    rewrite Hr, Hc, Hs, Hm, Hb, Hq, Hcoio, Hsched, Hcalls, Hmsgs, Hboxes,
      Hqueue.
    destruct (coio_call_reply w =? -1); rewrite <- !app_assoc;
      now repeat split.
Qed.

(** [consumer_close] on a live handle returns, and does not touch the
    userdata. *)
Lemma consumer_close_live (w : world) (p : nat) (c : consumer_t) :
  consumers w !! p = Some (Some c) ->
  exists err w', consumer_close p w = (Ret err, w') /\
    consumer_boxes w' = consumer_boxes w.
Proof.
  intros Hc. unfold consumer_close.
  run (load_consumer_run _ _ _ Hc).
  unfold rd_kafka_consumer_close, when_nonnull, rd_kafka_queue_destroy,
    rd_kafka_topic_partition_list_destroy, free_consumer,
    native, modify, get, bind, ret.
  destruct (rd_msg_queue c), (rd_consumer c), (rd_event_queue c), (topics c);
    cbn;
    try (destruct (consumer_close_reply (lib w) =? RD_KAFKA_RESP_ERR_NO_ERROR);
         cbn);
    eexists _, _; split; reflexivity.
Qed.

(** A consumer userdata whose pointer is NULL: what each function does. *)
Lemma cleared_consumer (w : world) (box : nat) (t : list (lua_value * lua_value)) :
  consumer_boxes w !! box = Some None ->
  let h := LUserdata consumer_label box in
  let fatal := (Raise (Error_msg fatal_consumer_error), w) in
  lua_consumer_close [h] w = (Ret [LBoolean false], w) /\
  lua_consumer_gc [h] w = (Ret [], w) /\
  lua_consumer_poll [h] w = fatal /\
  lua_consumer_poll_msg [h] w = fatal /\
  lua_consumer_subscribe [h; LTable t] w = fatal.
Proof.
  intros Hbox h fatal.
  assert (Hcheck : forall L, lua_arg L 1 = h ->
            lua_check_consumer L 1 w
            = (Raise (Error_msg fatal_consumer_error), w)).
  { intros L HL. unfold lua_check_consumer, luaL_checkudata, bind, get.
    rewrite HL. cbn. now rewrite Hbox. }
  unfold lua_consumer_close, lua_consumer_gc, lua_consumer_poll,
    lua_consumer_poll_msg, lua_consumer_subscribe, luaL_checkudata.
  cbn [lua_gettop List.length Nat.eqb negb lua_arg nth Nat.sub lua_istable orb h].
  unfold bind.
  rewrite (Hcheck [h] eq_refl), (Hcheck [h; LTable t] eq_refl).
  unfold get, ret, modify. rewrite Hbox. cbn.
  rewrite (list_insert_id _ _ _ Hbox).
  repeat split. now destruct w.
Qed.

(** X9. The finalizer of a live consumer returns nothing and clears the
    handle, whatever the close reports.  After it [close] answers false,
    a second finalizer does nothing, and [poll], [poll_msg] and
    [subscribe] raise the fatal error of [lua_check_consumer], all with
    the state unchanged. *)
Theorem consumer_gc_clears (w : world) (box p : nat) (c : consumer_t)
    (t : list (lua_value * lua_value)) :
  consumer_boxes w !! box = Some (Some p) ->
  consumers w !! p = Some (Some c) ->
  let h := LUserdata consumer_label box in
  let g := lua_consumer_gc [h] w in
  let w1 := snd g in
  let fatal := (Raise (Error_msg fatal_consumer_error), w1) in
  fst g = Ret [] /\
  consumer_handle w1 h = None /\
  lua_consumer_close [h] w1 = (Ret [LBoolean false], w1) /\
  lua_consumer_gc [h] w1 = (Ret [], w1) /\
  lua_consumer_poll [h] w1 = fatal /\
  lua_consumer_poll_msg [h] w1 = fatal /\
  lua_consumer_subscribe [h; LTable t] w1 = fatal.
Proof.
  intros Hbox Hc h g w1 fatal.
  destruct (consumer_close_live w p c Hc) as (err & w' & Hclose & Hboxes).
  assert (Hg : g = (Ret [], set_consumer_boxes
                              (<[box := None]> (consumer_boxes w')) w')).
  { subst g. unfold lua_consumer_gc, luaL_checkudata.
    cbn [h lua_arg nth Nat.sub]. unfold bind at 1, ret at 1.
    unfold bind at 1. unfold bind at 1, get at 1. rewrite Hbox.
    run Hclose. reflexivity. }
  assert (Hcleared : consumer_boxes w1 !! box = Some None).
  { subst w1. rewrite Hg. cbn. rewrite Hboxes.
    apply list_lookup_insert_eq. eapply lookup_lt_Some, Hbox. }
  split; [now rewrite Hg|]. split.
  - unfold consumer_handle. cbn [h]. now rewrite Hcleared.
  - exact (cleared_consumer w1 box t Hcleared).
Qed.

(** The native close that goes through: the calls it makes, in order, and
    the handle it frees. *)
Lemma lua_consumer_close_ok (w : world) (box p : nat) (c : consumer_t)
    (rk eq mq : nat) :
  consumer_boxes w !! box = Some (Some p) ->
  consumers w !! p = Some (Some c) ->
  rd_msg_queue c = Some mq ->
  rd_consumer c = Some rk ->
  rd_event_queue c = Some eq ->
  consumer_close_reply (lib w) = RD_KAFKA_RESP_ERR_NO_ERROR ->
  exists w', lua_consumer_close [LUserdata consumer_label box] w
             = (Ret [LBoolean true], w') /\
    calls w'
    = calls w
      ++ [Queue_destroy mq; Kafka_consumer_close rk; Queue_destroy eq]
      ++ match topics c with
         | Some l => [Topic_partition_list_destroy l]
         | None => []
         end /\
    consumers w' = <[p := None]> (consumers w) /\
    consumer_boxes w' = consumer_boxes w /\
    facades w' = facades w /\ sched w' = sched w.
Proof.
  intros Hbox Hc Hmq Hrk Heq Hok.
  unfold lua_consumer_close, luaL_checkudata.
  cbn [lua_arg nth Nat.sub]. unfold bind at 1, ret at 1.
  unfold bind at 1, get at 1. rewrite Hbox.
  unfold consumer_close. unfold bind at 1.
  run (load_consumer_run _ _ _ Hc).
  rewrite Hmq, Hrk, Heq.
  unfold rd_kafka_consumer_close, when_nonnull, rd_kafka_queue_destroy,
    rd_kafka_topic_partition_list_destroy, free_consumer,
    native, modify, get, bind, ret.
  cbn [set_calls lib]. rewrite Hok.
  destruct (topics c); cbn; eexists; (split; [reflexivity|]); cbn;
    rewrite <- ?app_assoc; now repeat split.
Qed.

(** X10. [close] on a facade with both fibers, a live consumer and a
    client that closes without error returns nil after cancelling the
    record fiber, then the poll fiber, then closing the channel, and
    after destroying the record queue, closing the client, destroying the
    event queue and, if there is one, the topic list, in that order; the
    native consumer is freed and the facade's [_consumer] is nil. *)
Theorem close_tears_down_in_order (w : world) (self : nat) (s : Consumer)
    (c : consumer_t) (f1 f2 rk eq mq : nat) :
  facades w !! self = Some s ->
  _poll_msg_fiber s = Some f2 ->
  _poll_fiber s = Some f1 ->
  consumer_handle w (_consumer s) = Some c ->
  rd_msg_queue c = Some mq ->
  rd_consumer c = Some rk ->
  rd_event_queue c = Some eq ->
  consumer_close_reply (lib w) = RD_KAFKA_RESP_ERR_NO_ERROR ->
  let r := Consumer_close self w in
  fst r = Ret [LNil] /\
  sched (snd r)
  = sched w ++ [Fiber_cancel f2; Fiber_cancel f1;
                Channel_close (_output_ch s)] /\
  calls (snd r)
  = calls w
    ++ [Queue_destroy mq; Kafka_consumer_close rk; Queue_destroy eq]
    ++ match topics c with
       | Some l => [Topic_partition_list_destroy l]
       | None => []
       end /\
  consumer_handle (snd r) (_consumer s) = None /\
  (_consumer <$> facades (snd r) !! self) = Some LNil.
Proof.
  intros Hs Hf2 Hf1 Hh Hmq Hrk Heq Hok r.
  destruct (consumer_handle_inv _ _ _ Hh) as (box & p & Hud & Hbox & Hc).
  enough (Hres : exists w2 s2,
            Consumer_close self w = (Ret [LNil], w2) /\
            sched w2 = sched w ++ [Fiber_cancel f2; Fiber_cancel f1;
                                   Channel_close (_output_ch s)] /\
            calls w2
            = calls w
              ++ [Queue_destroy mq; Kafka_consumer_close rk; Queue_destroy eq]
              ++ match topics c with
                 | Some l => [Topic_partition_list_destroy l]
                 | None => []
                 end /\
            consumers w2 !! p = Some None /\
            consumer_boxes w2 = consumer_boxes w /\
            facades w2 !! self = Some s2 /\ _consumer s2 = LNil).
  { destruct Hres as (w2 & s2 & Hrun & Hsched & Hcalls & Hfreed & Hboxes
                      & Hs2 & Hnil).
    subst r. rewrite Hrun. cbn [fst snd].
    repeat split; try assumption.
    - unfold consumer_handle. now rewrite Hud, Hboxes, Hbox, Hfreed.
    - now rewrite Hs2, <- Hnil. }
  unfold Consumer_close.
  run (load_facade_run _ _ _ Hs). rewrite Hf2, Hf1, Hud.
  change (method_call "_consumer" (LUserdata consumer_label box) "close" [])
    with (lua_consumer_close [LUserdata consumer_label box]).
  unfold fiber_cancel, schedule, modify.
  unfold bind at 1. unfold bind at 1. unfold bind at 1. unfold bind at 1.
  match goal with |- context [lua_consumer_close _ ?w0] =>
    destruct (lua_consumer_close_ok w0 box p c rk eq mq Hbox Hc Hmq Hrk Heq Hok)
      as (w' & Hrun & Hcalls & Hcons & Hboxes & Hfac & Hsched)
  end.
  rewrite Hrun.
  assert (Hs' : facades w' !! self = Some s) by (now rewrite Hfac).
  run (load_facade_run _ _ _ Hs').
  unfold store_facade, modify, bind, ret. cbn.
  eexists _, _. split; [reflexivity|]. cbn.
  rewrite Hsched, Hcalls, Hboxes, Hcons. cbn.
  rewrite !list_lookup_insert_eq
    by (first [eapply lookup_lt_Some, Hc | eapply lookup_lt_Some, Hs']).
  rewrite <- !app_assoc. now repeat split.
Qed.

(** What [Consumer:close] leaves in the facade once it has returned. *)
Lemma closed_facade (w w1 : world) (self : nat) (v : list lua_value) :
  Consumer_close self w = (Ret v, w1) ->
  exists s, facades w1 !! self = Some s /\ _consumer s = LNil.
Proof.
  unfold Consumer_close at 1.
  destruct (facades w !! self) as [s|] eqn:Hs;
    [|unfold load_facade, bind, get; now rewrite Hs].
  run (load_facade_run _ _ _ Hs).
  destruct (_poll_msg_fiber s) as [f2|] eqn:Hf2; [|discriminate].
  destruct (_poll_fiber s) as [f1|] eqn:Hf1; [|discriminate].
  unfold fiber_cancel, schedule, modify. unfold bind at 1. unfold bind at 1.
  unfold bind at 1. unfold bind at 1.
  match goal with |- context [method_call ?f ?o ?n ?a ?w0] =>
    pose proof (H := quiet_lua_consumer_close (o :: a) w0);
    assert (Hq : facades (snd (method_call f o n a w0)) = facades w0)
  end.
  { destruct (_consumer s) as [| | | | |[] box| | |]; try reflexivity.
    exact (proj2 H). }
  clear H.
  match goal with |- context [method_call ?f ?o ?n ?a ?w0] =>
    destruct (method_call f o n a w0) as [[r | e | f'] w2]
  end; try discriminate.
  cbn [snd set_sched facades] in Hq.
  assert (Hs2 : facades w2 !! self = Some s) by (now rewrite Hq).
  run (load_facade_run _ _ _ Hs2).
  unfold store_facade, modify, bind, ret. intros [= _ <-].
  eexists. cbn [facades set_facades].
  split; [apply list_lookup_insert_eq; eapply lookup_lt_Some, Hs2|].
  reflexivity.
Qed.

(** X11. After a [close] that returned, [subscribe], [store_offset] and a
    turn of either loop on the same facade raise (the field [_consumer]
    is nil) and change nothing, while [output] still returns the
    channel. *)
Theorem closed_facade_raises (w w1 : world) (self : nat)
    (v : list lua_value) (topics message : lua_value) :
  Consumer_close self w = (Ret v, w1) ->
  let e := Index_error "_consumer" LNil in
  Consumer_subscribe self topics w1 = (Raise e, w1) /\
  Consumer_store_offset self message w1 = (Raise e, w1) /\
  Consumer__poll_turn self w1 = (Raise e, w1) /\
  Consumer__poll_msg_turn self w1 = (Raise e, w1) /\
  exists ch, Consumer_output self w1 = (Ret [LChannel ch], w1).
Proof.
  intros Hclose e.
  destruct (closed_facade _ _ _ _ Hclose) as (s & Hs & Hnil).
  unfold Consumer_subscribe, Consumer_store_offset, Consumer__poll_turn,
    Consumer__poll_msg_turn, Consumer_output.
  rewrite !(bind_run _ _ _ _ _ (load_facade_run _ _ _ Hs)), Hnil.
  repeat split. now eexists.
Qed.

(** The options loop on accepted string pairs changes the call log only. *)
Lemma options_loop_applied (conf : nat) (accepted : list (string * string)) :
  forall (w : world) (rest : list (lua_value * lua_value)),
  (forall name value, In (name, value) accepted ->
     conf_set_reply (lib w) (c_str name) (c_str value) = None) ->
  exists w', options_loop conf (string_pairs accepted ++ rest) w
             = options_loop conf rest w' /\
    lib w' = lib w /\
    consumers w' = consumers w /\
    consumer_boxes w' = consumer_boxes w /\
    calls w'
    = calls w
      ++ map (fun e => Conf_set conf (c_str (fst e)) (c_str (snd e))) accepted.
Proof.
  induction accepted as [|[name value] more IH]; intros w rest Hok.
  - exists w. cbn. now rewrite app_nil_r.
  - cbn [string_pairs map app options_loop fst snd lua_isstring negb orb
         lua_tostring nonnull].
    unfold bind at 1, ret at 1. unfold bind at 1, ret at 1.
    unfold rd_kafka_conf_set, native, modify, get, bind, ret.
    cbn [set_calls lib]. rewrite (Hok name value (or_introl eq_refl)).
    match goal with |- context [options_loop conf _ ?w1] =>
      destruct (IH w1 rest) as (w' & Hrun & Hlib & Hcons & Hboxes & Hcalls)
    end.
    { intros n v Hin. cbn. apply Hok. now right. }
    exists w'. unfold string_pairs in Hrun. rewrite Hrun.
    repeat split; try assumption. rewrite Hcalls. cbn.
    now rewrite <- app_assoc.
Qed.

(** [create_consumer] up to the end of accepted options. *)
Lemma create_options_applied (w : world)
    (conf : list (lua_value * lua_value))
    (accepted : list (string * string)) (rd_config : nat) :
  has_options conf accepted ->
  (forall name value, In (name, value) accepted ->
     conf_set_reply (lib w) (c_str name) (c_str value) = None) ->
  exists w',
    (if lua_istable (lua_getfield conf "options")
     then options_loop rd_config (table_entries (lua_getfield conf "options"))
     else ret None) w = (Ret None, w') /\
    lib w' = lib w /\
    consumers w' = consumers w /\
    consumer_boxes w' = consumer_boxes w /\
    calls w'
    = calls w
      ++ map (fun e => Conf_set rd_config (c_str (fst e)) (c_str (snd e)))
             accepted.
Proof.
  intros [Hopts | [Hnone ->]] Hok.
  - rewrite Hopts. cbn [lua_istable table_entries].
    destruct (options_loop_applied rd_config accepted w [] Hok)
      as (w' & Hrun & Hfacts).
    rewrite app_nil_r in Hrun. exists w'. split; [exact Hrun | exact Hfacts].
  - rewrite Hnone. exists w. cbn. now rewrite app_nil_r.
Qed.

(** The first lines of [create_consumer], to the options. *)
Ltac create_to_options E :=
  unfold lua_create_consumer;
  cbn [lua_gettop List.length Nat.eqb negb lua_arg nth Nat.sub lua_istable
       orb table_entries];
  rewrite E;
  rewrite (bind_run _ _ _ _ _ (rd_kafka_conf_new_run _));
  rewrite (bind_run _ _ _ _ _ (rd_kafka_topic_conf_new_run _));
  unfold rd_kafka_conf_set_default_topic_conf;
  rewrite (bind_run _ _ _ _ _ (native_run _ _));
  cbn [set_calls calls].

(** X12. [create_consumer] with a broker list, options that the client
    accepts, a client that can be created and at least one broker taken
    returns a new consumer handle.  The consumer holds the configuration,
    the client, both queues and no topic list, and the native calls are,
    in order: the two configuration objects and their link, one
    [rd_kafka_conf_set] for each option, the client, the brokers, the
    main queue and the consumer queue. *)
Theorem create_consumer_succeeds (w : world)
    (conf : list (lua_value * lua_value)) (brokers : string)
    (accepted : list (string * string)) :
  lua_tostring (lua_getfield conf "brokers") = Some brokers ->
  has_options conf accepted ->
  (forall name value, In (name, value) accepted ->
     conf_set_reply (lib w) (c_str name) (c_str value) = None) ->
  new_reply (lib w) = None ->
  brokers_add_reply (lib w) (c_str brokers) <> 0 ->
  let r := lua_create_consumer [LTable conf] w in
  let rd_config := List.length (calls w) in
  let rk := (rd_config + 3 + List.length accepted)%nat in
  let h := LUserdata consumer_label (List.length (consumer_boxes w)) in
  fst r = Ret [h] /\
  consumer_handle (snd r) h
  = Some {| rd_config := Some rd_config; rd_consumer := Some rk;
            topics := None; rd_event_queue := Some (rk + 2)%nat;
            rd_msg_queue := Some (rk + 3)%nat |} /\
  calls (snd r)
  = calls w ++ configured rd_config accepted
    ++ [Kafka_new rd_config (Some rk); Brokers_add rk (c_str brokers);
        Queue_get_main rk (rk + 2); Queue_get_consumer rk (rk + 3)].
Proof.
  intros E Hopts Hok Hnew Hadd r rd_config rk h.
  enough (Hres : exists wf,
            lua_create_consumer [LTable conf] w = (Ret [h], wf) /\
            consumer_boxes wf
            = consumer_boxes w ++ [Some (List.length (consumers w))] /\
            consumers wf
            = consumers w
              ++ [Some {| rd_config := Some rd_config; rd_consumer := Some rk;
                          topics := None; rd_event_queue := Some (rk + 2)%nat;
                          rd_msg_queue := Some (rk + 3)%nat |}] /\
            calls wf
            = calls w ++ configured rd_config accepted
              ++ [Kafka_new rd_config (Some rk); Brokers_add rk (c_str brokers);
                  Queue_get_main rk (rk + 2); Queue_get_consumer rk (rk + 3)]).
  { destruct Hres as (wf & Hrun & Hboxes & Hcons & Hcalls).
    subst r. rewrite Hrun. cbn [fst snd]. repeat split; [|exact Hcalls].
    unfold consumer_handle. cbn [h].
    rewrite Hboxes, list_lookup_middle by reflexivity.
    rewrite Hcons, list_lookup_middle by reflexivity. reflexivity. }
  create_to_options E.
  match goal with |- context [bind (if lua_istable _ then _ else _) _ ?w1] =>
    destruct (create_options_applied w1 conf accepted rd_config Hopts)
      as (w' & Hrun & Hlib & Hcons & Hboxes & Hcalls) end.
  { intros n val Hin. cbn. now apply Hok. }
  cbn [lib consumers consumer_boxes calls set_calls] in Hlib, Hcons, Hboxes,
    Hcalls.
  rewrite length_app, Nat.add_1_r in Hcalls. fold rd_config in Hcalls.
  fold rd_config. run Hrun.
  unfold rd_kafka_new. unfold bind at 1. unfold bind at 1, get at 1.
  rewrite Hlib. cbn [lib set_calls]. rewrite Hnew.
  unfold fresh_handle, native, modify. unfold bind at 1. unfold bind at 1.
  unfold bind at 1, get at 1. unfold ret at 1. unfold bind at 1. unfold ret at 1.
  cbn [fst snd].
  unfold rd_kafka_brokers_add, native, modify. unfold bind at 1.
  unfold bind at 1. unfold bind at 1, get at 1. unfold ret at 1.
  cbn [lib set_calls]. rewrite Hlib. cbn [lib set_calls].
  destruct (Z.eqb_spec (brokers_add_reply (lib w) (c_str brokers)) 0)
    as [Hz | _]; [contradiction|].
  unfold rd_kafka_queue_get_main, rd_kafka_queue_get_consumer,
    malloc_consumer, new_consumer_userdata, fresh_handle, native, modify,
    get, bind, ret.
  assert (Hlen : List.length (calls w') = rk).
  { rewrite Hcalls, !length_app, length_map. cbn. subst rk rd_config. lia. }
  cbn. rewrite !length_app. cbn [List.length]. rewrite Hlen, Hboxes, Hcons.
  replace (rk + 1 + 1)%nat with (rk + 2)%nat by lia.
  replace (rk + 2 + 1)%nat with (rk + 3)%nat by lia.
  eexists. split; [reflexivity|]. cbn.
  split; [reflexivity|]. split; [reflexivity|].
  rewrite Hcalls. unfold configured. rewrite <- !app_assoc. reflexivity.
Qed.

(** X13. When the client rejects an option, [create_consumer] returns nil
    and the client's error text; the options before it have been applied,
    the rejected one is the last native call, and no client and no
    consumer has been made. *)
Theorem create_consumer_option_rejected (w : world)
    (conf : list (lua_value * lua_value)) (brokers : string)
    (accepted : list (string * string)) (name value errstr : string)
    (rest : list (lua_value * lua_value)) :
  lua_tostring (lua_getfield conf "brokers") = Some brokers ->
  lua_getfield conf "options"
  = LTable (string_pairs accepted ++ (LString name, LString value) :: rest) ->
  (forall n v, In (n, v) accepted ->
     conf_set_reply (lib w) (c_str n) (c_str v) = None) ->
  conf_set_reply (lib w) (c_str name) (c_str value) = Some errstr ->
  let r := lua_create_consumer [LTable conf] w in
  let rd_config := List.length (calls w) in
  fst r = Ret [LNil; LString (c_str errstr)] /\
  calls (snd r)
  = calls w ++ configured rd_config accepted
    ++ [Conf_set rd_config (c_str name) (c_str value)] /\
  consumers (snd r) = consumers w /\
  consumer_boxes (snd r) = consumer_boxes w.
Proof.
  intros E Hopts Hok Hbad r rd_config.
  enough (Hres : exists wf,
            lua_create_consumer [LTable conf] w
            = (Ret [LNil; LString (c_str errstr)], wf) /\
            calls wf
            = calls w ++ configured rd_config accepted
              ++ [Conf_set rd_config (c_str name) (c_str value)] /\
            consumers wf = consumers w /\
            consumer_boxes wf = consumer_boxes w).
  { destruct Hres as (wf & Hrun & Hfacts). subst r. now rewrite Hrun. }
  create_to_options E. rewrite Hopts. cbn [lua_istable table_entries].
  match goal with |- context [bind (options_loop ?c _) _ ?w1] =>
    destruct (options_loop_applied c accepted w1
                ((LString name, LString value) :: rest))
      as (w' & Hrun & Hlib & Hcons & Hboxes & Hcalls) end.
  { intros n val Hin. cbn. now apply Hok. }
  cbn [lib consumers consumer_boxes calls set_calls] in Hlib, Hcons, Hboxes,
    Hcalls.
  unfold bind at 1. rewrite Hrun.
  rewrite length_app, Nat.add_1_r in Hcalls. fold rd_config in Hcalls.
  fold rd_config.
  cbn [options_loop lua_isstring negb orb lua_tostring nonnull].
  unfold rd_kafka_conf_set, native, modify, get, bind, ret.
  cbn [set_calls lib]. rewrite Hlib, Hbad. cbn.
  eexists. split; [reflexivity|]. cbn.
  rewrite Hcalls. unfold configured. rewrite <- !app_assoc.
  now repeat split.
Qed.

(** X14. When the client cannot be created, [create_consumer] returns
    nil and the text [rd_kafka_new] gave; the failed creation is the last
    native call and no consumer has been made. *)
Theorem create_consumer_client_fails (w : world)
    (conf : list (lua_value * lua_value)) (brokers errstr : string)
    (accepted : list (string * string)) :
  lua_tostring (lua_getfield conf "brokers") = Some brokers ->
  has_options conf accepted ->
  (forall name value, In (name, value) accepted ->
     conf_set_reply (lib w) (c_str name) (c_str value) = None) ->
  new_reply (lib w) = Some errstr ->
  let r := lua_create_consumer [LTable conf] w in
  let rd_config := List.length (calls w) in
  fst r = Ret [LNil; LString (c_str errstr)] /\
  calls (snd r)
  = calls w ++ configured rd_config accepted ++ [Kafka_new rd_config None] /\
  consumers (snd r) = consumers w /\
  consumer_boxes (snd r) = consumer_boxes w.
Proof.
  intros E Hopts Hok Hnew r rd_config.
  enough (Hres : exists wf,
            lua_create_consumer [LTable conf] w
            = (Ret [LNil; LString (c_str errstr)], wf) /\
            calls wf
            = calls w ++ configured rd_config accepted
              ++ [Kafka_new rd_config None] /\
            consumers wf = consumers w /\
            consumer_boxes wf = consumer_boxes w).
  { destruct Hres as (wf & Hrun & Hfacts). subst r. now rewrite Hrun. }
  create_to_options E.
  match goal with |- context [bind (if lua_istable _ then _ else _) _ ?w1] =>
    destruct (create_options_applied w1 conf accepted rd_config Hopts)
      as (w' & Hrun & Hlib & Hcons & Hboxes & Hcalls) end.
  { intros n val Hin. cbn. now apply Hok. }
  cbn [lib consumers consumer_boxes calls set_calls] in Hlib, Hcons, Hboxes,
    Hcalls.
  rewrite length_app, Nat.add_1_r in Hcalls. fold rd_config in Hcalls.
  fold rd_config. run Hrun.
  unfold rd_kafka_new. unfold bind at 1. unfold bind at 1, get at 1.
  rewrite Hlib, Hnew.
  unfold native, modify, bind, ret. cbn.
  eexists. split; [reflexivity|]. cbn.
  rewrite Hcalls. unfold configured. rewrite <- !app_assoc.
  now repeat split.
Qed.

(** X15. When [rd_kafka_brokers_add] takes no broker,
    [create_consumer] returns nil and "No valid brokers specified"; the
    client has been created, the call that adds the brokers is the last
    one, no queue is taken and no consumer has been made. *)
Theorem create_consumer_no_brokers (w : world)
    (conf : list (lua_value * lua_value)) (brokers : string)
    (accepted : list (string * string)) :
  lua_tostring (lua_getfield conf "brokers") = Some brokers ->
  has_options conf accepted ->
  (forall name value, In (name, value) accepted ->
     conf_set_reply (lib w) (c_str name) (c_str value) = None) ->
  new_reply (lib w) = None ->
  brokers_add_reply (lib w) (c_str brokers) = 0 ->
  let r := lua_create_consumer [LTable conf] w in
  let rd_config := List.length (calls w) in
  let rk := (rd_config + 3 + List.length accepted)%nat in
  fst r = Ret [LNil; LString "No valid brokers specified"] /\
  calls (snd r)
  = calls w ++ configured rd_config accepted
    ++ [Kafka_new rd_config (Some rk); Brokers_add rk (c_str brokers)] /\
  consumers (snd r) = consumers w /\
  consumer_boxes (snd r) = consumer_boxes w.
Proof.
  intros E Hopts Hok Hnew Hadd r rd_config rk.
  enough (Hres : exists wf,
            lua_create_consumer [LTable conf] w
            = (Ret [LNil; LString "No valid brokers specified"], wf) /\
            calls wf
            = calls w ++ configured rd_config accepted
              ++ [Kafka_new rd_config (Some rk);
                  Brokers_add rk (c_str brokers)] /\
            consumers wf = consumers w /\
            consumer_boxes wf = consumer_boxes w).
  { destruct Hres as (wf & Hrun & Hfacts). subst r. now rewrite Hrun. }
  create_to_options E.
  match goal with |- context [bind (if lua_istable _ then _ else _) _ ?w1] =>
    destruct (create_options_applied w1 conf accepted rd_config Hopts)
      as (w' & Hrun & Hlib & Hcons & Hboxes & Hcalls) end.
  { intros n val Hin. cbn. now apply Hok. }
  cbn [lib consumers consumer_boxes calls set_calls] in Hlib, Hcons, Hboxes,
    Hcalls.
  rewrite length_app, Nat.add_1_r in Hcalls. fold rd_config in Hcalls.
  fold rd_config. run Hrun.
  unfold rd_kafka_new. unfold bind at 1. unfold bind at 1, get at 1.
  rewrite Hlib. cbn [lib set_calls]. rewrite Hnew.
  unfold fresh_handle, native, modify. unfold bind at 1. unfold bind at 1.
  unfold bind at 1, get at 1. unfold ret at 1. unfold bind at 1. unfold ret at 1.
  cbn [fst snd].
  unfold rd_kafka_brokers_add, native, modify. unfold bind at 1.
  unfold bind at 1. unfold bind at 1, get at 1. unfold ret at 1.
  cbn [lib set_calls]. rewrite Hlib. cbn [lib set_calls]. rewrite Hadd.
  assert (Hlen : List.length (calls w') = rk).
  { rewrite Hcalls, !length_app, length_map. cbn. subst rk rd_config. lia. }
  cbn. rewrite Hlen. eexists. split; [reflexivity|]. cbn.
  rewrite Hcalls. unfold configured. rewrite <- !app_assoc.
  now repeat split.
Qed.

(** X16. When [create_consumer] returns a consumer, [Consumer.create]
    returns a new facade and nil: it makes a channel of 10000 slots, then
    the poll fiber, then the record fiber, makes no native call of its
    own, stores the configuration, the consumer, the channel and both
    fibers in the facade, and [output] on the facade returns that
    channel. *)
Theorem Consumer_create_spawns (w w' : world) (config ud : lua_value) :
  is_nil config = false ->
  lua_create_consumer [config] w = (Ret [ud], w') ->
  let r := Consumer_create config w in
  let new := List.length (facades w') in
  let ch := List.length (sched w') in
  fst r = Ret [LConsumer new; LNil] /\
  sched (snd r)
  = sched w' ++ [Fiber_channel 10000 ch; Fiber_create (Fn_poll new) (S ch);
                 Fiber_create (Fn_poll_msg new) (S (S ch))] /\
  facades (snd r)
  = facades w' ++ [{| config := config; _consumer := ud; _output_ch := ch;
                      _poll_fiber := Some (S ch);
                      _poll_msg_fiber := Some (S (S ch)) |}] /\
  calls (snd r) = calls w' /\
  Consumer_output new (snd r) = (Ret [LChannel ch], snd r).
Proof.
  intros Hnil Hrun r new ch.
  enough (Hres : exists wf,
            Consumer_create config w = (Ret [LConsumer new; LNil], wf) /\
            sched wf
            = sched w' ++ [Fiber_channel 10000 ch;
                           Fiber_create (Fn_poll new) (S ch);
                           Fiber_create (Fn_poll_msg new) (S (S ch))] /\
            facades wf
            = facades w' ++ [{| config := config; _consumer := ud;
                                _output_ch := ch; _poll_fiber := Some (S ch);
                                _poll_msg_fiber := Some (S (S ch)) |}] /\
            calls wf = calls w').
  { destruct Hres as (wf & Hcreate & Hsched & Hfac & Hcalls).
    subst r. rewrite Hcreate. cbn [fst snd]. repeat split; try assumption.
    unfold Consumer_output, load_facade, bind, get.
    rewrite Hfac, list_lookup_middle by reflexivity. reflexivity. }
  unfold Consumer_create. rewrite Hnil. run Hrun.
  cbn [result1 result2 nth is_nil negb].
  unfold fiber_channel, new_facade, fiber_create, store_facade, schedule,
    modify, get, bind, ret.
  cbn. rewrite !length_app. cbn [List.length].
  fold ch. fold new.
  replace (ch + 1)%nat with (S ch) by lia.
  replace (S ch + 1)%nat with (S (S ch)) by lia.
  eexists. split; [reflexivity|]. cbn.
  rewrite <- !app_assoc. cbn.
  repeat split.
  rewrite !insert_app_r_alt by lia. rewrite Nat.sub_diag. reflexivity.
Qed.

(** X17. [subscribe] on a facade with a live consumer returns nothing
    when [rd_kafka_subscribe] reports no error and otherwise the text of
    the error, and only that.  Either way the names have been appended to
    the consumer's list, and the native calls are the creation of the
    list if there was none, one addition for each name, and the
    subscription of the whole list. *)
Theorem subscribe_error_keeps_topics (w : world) (self : nat) (s : Consumer)
    (c : consumer_t) (rk : nat) (names : list (lua_value * string)) :
  facades w !! self = Some s ->
  consumer_handle w (_consumer s) = Some c ->
  rd_consumer c = Some rk ->
  let l := default [] (topics c) ++ listed names in
  let err := subscribe_reply (lib w) l in
  strlen (rd_kafka_err2str (lib w) err) < 512 ->
  let r := Consumer_subscribe self (LTable (named names)) w in
  fst r = Ret (if err =? RD_KAFKA_RESP_ERR_NO_ERROR then []
               else [LString (c_str (rd_kafka_err2str (lib w) err))]) /\
  consumer_handle (snd r) (_consumer s) = Some (with_topics c l) /\
  calls (snd r) = calls w ++ subscribe_calls c rk names.
Proof.
  intros Hs Hh Hrk l err Hfit r. subst r.
  rewrite (Consumer_subscribe_run w self s c _ Hs Hh).
  destruct (consumer_handle_inv _ _ _ Hh) as (box & p & Hbx & Hbox & Hc).
  rewrite Hbx. clear Hbx Hs Hh.
  enough (Hres : exists w',
            lua_consumer_subscribe
              [LUserdata consumer_label box; LTable (named names)] w
            = (Ret (if err =? RD_KAFKA_RESP_ERR_NO_ERROR then []
                    else [LString (c_str (rd_kafka_err2str (lib w) err))]),
               w') /\
            consumer_handle w' (LUserdata consumer_label box)
            = Some (with_topics c l) /\
            calls w' = calls w ++ subscribe_calls c rk names).
  { destruct Hres as (w' & Hrun & Hfacts). now rewrite Hrun. }
  unfold lua_consumer_subscribe.
  cbn [lua_gettop List.length Nat.eqb negb lua_arg nth Nat.sub lua_istable orb
       table_entries].
  rewrite (bind_run (lua_check_consumer _ 1) _ w w p)
    by (eapply lua_check_consumer_run; [reflexivity | exact Hbox]).
  run (load_consumer_run _ _ _ Hc).
  assert (Hready : exists w0,
    (match topics c with
     | None =>
         bind (rd_kafka_topic_partition_list_new sizeof_pointer)
           (fun l0 => store_consumer p (with_topics c l0))
     | Some _ => ret tt
     end) w = (Ret tt, w0) /\
    consumers w0 !! p = Some (Some (with_topics c (default [] (topics c)))) /\
    consumer_boxes w0 = consumer_boxes w /\ lib w0 = lib w /\
    calls w0 = calls w ++ match topics c with
                          | None => [Topic_partition_list_new sizeof_pointer]
                          | Some _ => []
                          end).
  { destruct (topics c) as [l0|] eqn:Hl.
    - exists w. rewrite app_nil_r. repeat split; try reflexivity.
      rewrite Hc. destruct c; cbn in *. now subst.
    - eexists. split; [reflexivity|]. cbn. repeat split.
      apply list_lookup_insert_eq. eapply lookup_lt_Some, Hc. }
  destruct Hready as (w0 & Hrun0 & Hc0 & Hb0 & Hlib0 & Hcalls0).
  run Hrun0.
  destruct (subscribe_loop_run names w0 p _ _ Hc0 eq_refl)
    as (w1 & Hrun1 & Hc1 & Hb1 & Hlib1 & _ & Hcalls1).
  run Hrun1.
  run (load_consumer_run _ _ _ Hc1).
  cbn [with_topics rd_consumer topics]. rewrite Hrk. cbn [nonnull].
  unfold bind at 1, ret at 1. unfold bind at 1, ret at 1.
  unfold rd_kafka_subscribe, native, modify, get, bind, ret.
  cbn [set_calls lib]. rewrite Hlib1, Hlib0.
  fold l. fold err.
  assert (Hafter : forall w2, consumers w2 = consumers w1 ->
            consumer_boxes w2 = consumer_boxes w1 ->
            consumer_handle w2 (LUserdata consumer_label box)
            = Some (with_topics c l)).
  { intros w2 E1 E2. unfold consumer_handle.
    rewrite E2, Hb1, Hb0, Hbox, E1, Hc1. reflexivity. }
  assert (Hlog : calls w1 ++ [Subscribe rk l]
                 = calls w ++ subscribe_calls c rk names).
  { rewrite Hcalls1, Hcalls0. unfold subscribe_calls. fold l.
    now rewrite <- !app_assoc. }
  destruct (err =? RD_KAFKA_RESP_ERR_NO_ERROR).
  - eexists. split; [reflexivity|]. cbn. split; [now apply Hafter | exact Hlog].
  - unfold strcpy. cbn [lib set_calls]. rewrite Hlib1, Hlib0.
    assert (Hle : (strlen (rd_kafka_err2str (lib w) err) + 1 <=? 512) = true)
      by (apply Z.leb_le; lia).
    rewrite Hle. cbn. rewrite c_str_idempotent.
    eexists. split; [reflexivity|]. cbn. split; [now apply Hafter | exact Hlog].
Qed.

End Properties.

(** The round-trip record behind handle 0: every accessor, and the debug
    string. *)
Lemma orders_round_trip_witness :
  let w := holding (orders_record true true) in
  let h := LUserdata consumer_msg_label 0 in
  record_of w h = Some (orders_record true true) /\
  lua_consumer_msg_topic [h] w = (Ret [LString "orders"], w) /\
  lua_consumer_msg_partition [h] w = (Ret [LNumber 0], w) /\
  lua_consumer_msg_offset [h] w = (Ret [LInt64 42], w) /\
  lua_consumer_msg_key [h] w = (Ret [LString "k1"], w) /\
  lua_consumer_msg_value [h] w = (Ret [LString "v1"], w) /\
  lua_consumer_msg_tostring [h] w
    = (Ret [LString ("Kafka Consumer Message: topic=orders partition=0"
                     +:+ " offset=42 key=k1 value=v1")],
       w).
Proof.
  split; [reflexivity|].
  apply (orders_round_trip (holding (orders_record true true))
           (LUserdata consumer_msg_label 0) true true).
  reflexivity.
Defined.

(** Two bytes of key with other bytes after them in memory: the two bytes
    are returned and nothing of what follows; a value of length zero
    behind a null pointer is not returned. *)
Lemma key_value_absent_or_exact_witness :
  let m := {| rkt := {| topic_name := "orders" |}; partition := 0;
              payload := None; len := 0;
              key := Some "k1xyz"%string; key_len := 2; offset := 42 |} in
  let w := holding m in
  let h := LUserdata consumer_msg_label 0 in
  record_of w h = Some m /\
  lua_consumer_msg_key [h] w = (Ret [LString "k1"], w) /\
  lua_consumer_msg_value [h] w = (Ret [], w).
Proof.
  intros m w h.
  assert (Hkey_range : 0 <= key_len m < 2 ^ 64)
    by (vm_compute; split; [discriminate | reflexivity]).
  assert (Hlen_range : 0 <= len m < 2 ^ 64)
    by (vm_compute; split; [discriminate | reflexivity]).
  pose proof (key_value_absent_or_exact w h m eq_refl Hkey_range Hlen_range)
    as (_ & Hvalue & Hkey & _).
  split; [reflexivity|]. split.
  - destruct (Hkey "k1xyz"%string eq_refl) as (bytes & rest & Hmem & Hlen & Hrun).
    + vm_compute. split; [reflexivity | discriminate].
    + destruct bytes as [|a [|b [|c bytes]]]; cbn in Hlen; try lia.
      cbn in Hmem. injection Hmem as <- <- _. exact Hrun.
  - apply Hvalue. right. reflexivity.
Defined.

(** Partition 3, offset 99: the stored offset of the topic's partition 3
    becomes 99. *)
Lemma store_offset_stores_record_offset_witness :
  let m := {| rkt := {| topic_name := "orders" |}; partition := 3;
              payload := None; len := 0; key := None; key_len := 0;
              offset := 99 |} in
  let r := lua_consumer_store_offset
             [LNil; LUserdata consumer_msg_label 0] (holding m) in
  fst r = Ret [] /\
  stored_offsets (snd r) !! ("orders"%string, 3) = Some 99.
Proof.
  intros m r.
  refine (proj1 (proj2 (store_offset_stores_record_offset (holding m) LNil
                   (LUserdata consumer_msg_label 0) m eq_refl _)) eq_refl).
  vm_compute. reflexivity.
Defined.

(** No data, a record, no data, a record: two handles on the channel, a
    sleep before each, a yield after each. *)
Lemma drain_forwards_records_in_order_witness :
  let polls := [None; Some (orders_record true true);
                None; Some (orders_record false true)] in
  let w := created agreeable (map (option_map one_record) polls) in
  let r := Consumer__poll_msg 4 0 w in
  fst r = Ret tt /\
  sched (snd r)
  = sched w ++ [Fiber_sleep_ms 10;
                Channel_put 0 (LUserdata consumer_msg_label 0); Fiber_yield;
                Fiber_sleep_ms 10;
                Channel_put 0 (LUserdata consumer_msg_label 1); Fiber_yield] /\
  map (record_of (snd r))
      [LUserdata consumer_msg_label 0; LUserdata consumer_msg_label 1]
  = [Some (orders_record true true); Some (orders_record false true)].
Proof.
  intros polls w r.
  exact (drain_forwards_records_in_order w 0 0 6 polls eq_refl eq_refl).
Defined.

(** An event of two records: the handle is on the first, the second is
    not delivered, and releasing the handle destroys the event. *)
Lemma only_first_record_of_event_delivered_witness :
  let ev := fetch [orders_record true true; orders_record false false] in
  let w := created agreeable [Some ev; None] in
  let h := LUserdata consumer_msg_label 0 in
  let r := Consumer__poll_msg 2 0 w in
  fst r = Ret tt /\
  sched (snd r)
  = sched w ++ [Channel_put 0 h; Fiber_yield; Fiber_sleep_ms 10] /\
  record_of (snd r) h = Some (orders_record true true) /\
  calls (snd (lua_consumer_msg_gc [h] (snd r)))
  = calls (snd r) ++ [Event_destroy ev].
Proof.
  intros ev w h r.
  destruct (only_first_record_of_event_delivered w 0 0 6 ev
              (orders_record true true) (orders_record false false) []
              [None] eq_refl eq_refl eq_refl eq_refl)
    as (Hret & Hsched & Hh & _ & _ & Hdestroy & _).
  refine (conj Hret (conj Hsched (conj _ Hdestroy))).
  exact (f_equal (fun o => match o with
                           | Some msg => rd_message msg
                           | None => None
                           end) Hh).
Defined.

(** "t1" then "t2" on a fresh consumer: the list is t1, t2 and is what is
    subscribed. *)
Lemma subscribe_accumulates_witness :
  let w := created agreeable [] in
  let first := LNumber (lua_int2number 1) in
  let r1 := Consumer_subscribe 0 (LTable [(first, LString "t1")]) w in
  let r2 := Consumer_subscribe 0 (LTable [(first, LString "t2")]) (snd r1) in
  let l := [("t1"%string, -1); ("t2"%string, -1)] in
  (exists c, consumer_handle (snd r2) (LUserdata consumer_label 0) = Some c /\
             topics c = Some l) /\
  last (calls (snd r2)) = Some (Subscribe 3 l).
Proof.
  intros w first r1 r2 l.
  destruct (subscribe_accumulates w 0 facade0 consumer0 3 first first
              "t1" "t2"
              eq_refl eq_refl eq_refl eq_refl eq_refl
              (fun e => eq_refl : strlen "Success" < 512))
    as (_ & Hh & Hcalls).
  split; [|exact Hcalls].
  eexists. split; [exact Hh | reflexivity].
Defined.

(** C7. Evaluation of the first [close()] when the native consumer-close
    call fails: the error text is returned, and the teardown has stopped
    right after that call: the event queue is not destroyed and the
    handle is not freed (it is still live, with all its fields). *)
Theorem close_error_skips_teardown :
  let w := created timing_out [] in
  let r := Consumer_close 0 w in
  fst r = Ret [LString "Local: Timed out"] /\
  calls (snd r) = calls w ++ [Queue_destroy 6; Kafka_consumer_close 3] /\
  consumer_handle (snd r) (LUserdata consumer_label 0) = Some consumer0.
Proof. vm_compute. repeat split. Qed.

(** C1. Evaluation of two [close()] calls in a row.  The first returns no
    error.  The second, on the facade, cancels both fibers and closes the
    channel again and then raises, the field [_consumer] being nil; on the
    native consumer itself a second [close], and likewise the finalizer
    run after the first [close], reads the freed handle. *)
Theorem close_twice_fails :
  let w := created agreeable [] in
  let h := LUserdata consumer_label 0 in
  let r1 := Consumer_close 0 w in
  let r2 := Consumer_close 0 (snd r1) in
  fst r1 = Ret [LNil] /\
  fst r2 = Raise (Index_error "_consumer" LNil) /\
  sched (snd r2)
  = sched (snd r1) ++ [Fiber_cancel 2; Fiber_cancel 1; Channel_close 0] /\
  fst (lua_consumer_close [h] (snd (lua_consumer_close [h] w)))
  = Fault Use_after_free /\
  fst (lua_consumer_gc [h] (snd r1)) = Fault Use_after_free.
Proof. vm_compute. repeat split. Qed.

(** Against C2 as it is stated: with a boolean option value the
    configuration error comes after the native configuration objects have
    been allocated, and a number for [brokers] is taken as a string and
    gives no error at all. *)
Lemma config_error_after_allocation :
  ~ fails_before_allocation conf_bad_option (start agreeable []) /\
  ~ fails_before_allocation conf_number_brokers (start agreeable []).
Proof.
  split.
  - intros [_ H]. vm_compute in H. discriminate H.
  - intros [[msg H] _]. vm_compute in H. discriminate H.
Qed.

(** No [brokers]: the error and an untouched state.  A boolean option
    value after an accepted option: the error, with the configuration
    objects created and the accepted option applied. *)
Lemma config_errors_and_allocation_witness :
  let w := start agreeable [] in
  lua_create_consumer [conf_no_brokers] w
  = (Ret [LNil;
          LString brokers_error],
     w) /\
  let r := lua_create_consumer [conf_bad_option] w in
  fst r
  = Ret [LNil;
         LString options_error] /\
  calls (snd r)
  = [Conf_new 0; Topic_conf_new 1; Conf_set_default_topic_conf 0 1;
     Conf_set 0 "group.id" "g"].
Proof.
  intros w. split.
  - exact (proj1 (config_errors_and_allocation w
                    (table_entries conf_no_brokers)) eq_refl).
  - exact (proj2 (config_errors_and_allocation w
                    (table_entries conf_bad_option))
             [("group.id", "g")%string] (LString "enable.auto.commit")
             (LBoolean true) [] eq_refl eq_refl
             (fun _ _ _ => eq_refl) (or_intror eq_refl)).
Defined.


(** A handle released twice: the event is destroyed once. *)
Lemma msg_gc_twice_is_noop_witness :
  let w := holding (orders_record true true) in
  let h := LUserdata consumer_msg_label 0 in
  let w1 := snd (lua_consumer_msg_gc [h] w) in
  calls w1 = [Event_destroy (fetch [orders_record true true])] /\
  lua_consumer_msg_gc [h] w1 = (Ret [], w1).
Proof.
  intros w h w1. split; [reflexivity|].
  exact (msg_gc_twice_is_noop w h _ eq_refl).
Defined.

(** The released handle 0 of the round-trip record. *)
Lemma released_handle_raises_witness :
  let w := holding (orders_record true true) in
  let h := LUserdata consumer_msg_label 0 in
  let w1 := snd (lua_consumer_msg_gc [h] w) in
  lua_consumer_msg_topic [h] w1
  = (Raise (Error_msg fatal_message_error), w1) /\
  lua_consumer_store_offset [LNil; h] w1
  = (Raise (Error_msg fatal_message_error), w1).
Proof.
  intros w h w1.
  pose proof (released_handle_raises w h LNil _ eq_refl)
    as (Htopic & _ & _ & _ & _ & _ & Hstore).
  exact (conj Htopic Hstore).
Defined.

(** [orders] fits the array, [payments] does not. *)
Lemma topic_fits_or_overflows_witness :
  let h := LUserdata consumer_msg_label 0 in
  let w1 := holding (orders_record true true) in
  let w2 := holding payments_record in
  lua_consumer_msg_topic [h] w1 = (Ret [LString "orders"], w1) /\
  lua_consumer_msg_topic [h] w2 = (Fault Buffer_overflow, w2).
Proof.
  intros h w1 w2. split.
  - apply (proj1 (topic_fits_or_overflows w1 h (orders_record true true)
                    eq_refl)).
    reflexivity.
  - apply (proj2 (topic_fits_or_overflows w2 h payments_record eq_refl)).
    vm_compute. discriminate.
Defined.


(** An event of two records, no data, an event that is no fetch, an event
    of one record: two handles, and the third event destroyed at once. *)
Lemma drain_any_script_witness :
  let ev := fetch [orders_record true true; orders_record false false] in
  let w := created agreeable
             [Some ev; None; Some error_event;
              Some (one_record payments_record)] in
  let r := Consumer__poll_msg 4 0 w in
  fst r = Ret tt /\
  sched (snd r)
  = sched w ++ [Channel_put 0 (LUserdata consumer_msg_label 0); Fiber_yield;
                Fiber_sleep_ms 10;
                Log_error (LString "got unexpected event type of 'Error'");
                Fiber_sleep_ms 10;
                Channel_put 0 (LUserdata consumer_msg_label 1); Fiber_yield] /\
  calls (snd r)
  = calls w ++ [Queue_poll 6 0; Queue_poll 6 0; Queue_poll 6 0;
                Event_destroy error_event; Queue_poll 6 0] /\
  map (record_of (snd r))
      [LUserdata consumer_msg_label 0; LUserdata consumer_msg_label 1]
  = [Some (orders_record true true); Some payments_record].
Proof.
  intros ev w r.
  destruct (drain_any_script w 0 0 6 eq_refl)
    as (Hret & Hsched & Hcalls & Hhandles).
  refine (conj Hret (conj Hsched (conj Hcalls _))).
  exact (f_equal (map (fun o => match o with
                                | Some msg => rd_message msg
                                | None => None
                                end)) Hhandles).
Defined.

(** The handle of a first turn is still on its record after a second. *)
Lemma drain_keeps_handles_witness :
  let w0 := created agreeable
              [Some (one_record (orders_record true true));
               Some (one_record payments_record)] in
  let w := snd (Consumer__poll_msg 1 0 w0) in
  let r := Consumer__poll_msg 1 0 w in
  let h := LUserdata consumer_msg_label 0 in
  record_of w h = Some (orders_record true true) /\
  record_of (snd r) h = Some (orders_record true true).
Proof.
  intros w0 w r h. split; [reflexivity|].
  exact (f_equal (fun o => match o with
                           | Some msg => rd_message msg
                           | None => None
                           end)
           (drain_keeps_handles w 0 0 6 h _ eq_refl eq_refl)).
Defined.

(** Three turns on an empty queue. *)
Lemma drain_idle_witness :
  let w := created agreeable [] in
  let r := Consumer__poll_msg 3 0 w in
  fst r = Ret tt /\
  calls (snd r) = calls w ++ [Queue_poll 6 0; Queue_poll 6 0; Queue_poll 6 0] /\
  sched (snd r)
  = sched w ++ [Fiber_sleep_ms 10; Fiber_sleep_ms 10; Fiber_sleep_ms 10] /\
  msgs (snd r) = [] /\ msg_boxes (snd r) = [].
Proof.
  intros w r. exact (drain_idle 3 w 0 0 6 eq_refl eq_refl).
Defined.

(** Two turns with the workers running, and two with every worker call
    failing. *)
Lemma poll_loop_witness :
  let w := created agreeable [] in
  let r := Consumer__poll 2 0 w in
  let w' := created_without_workers agreeable in
  let r' := Consumer__poll 2 0 w' in
  (fst r = Ret tt /\
   calls (snd r) = calls w ++ [Poll 3 1000; Poll 3 1000] /\
   sched (snd r) = sched w) /\
  (fst r' = Ret tt /\
   calls (snd r') = calls w' /\
   sched (snd r')
   = sched w' ++ [Log_error poll_error; Log_error poll_error]).
Proof.
  intros w r w' r'. split.
  - destruct (poll_loop 2 w 0 3 eq_refl) as (Hret & Hcalls & Hsched & _).
    exact (conj Hret (conj Hcalls (eq_trans Hsched (app_nil_r _)))).
  - destruct (poll_loop 2 w' 0 3 eq_refl) as (Hret & Hcalls & Hsched & _).
    exact (conj Hret (conj (eq_trans Hcalls (app_nil_r _)) Hsched)).
Defined.

(** The consumer of [created], collected without having been closed. *)
Lemma consumer_gc_clears_witness :
  let w := created agreeable [] in
  let h := LUserdata consumer_label 0 in
  let w1 := snd (lua_consumer_gc [h] w) in
  consumer_handle w h = Some consumer0 /\
  consumer_handle w1 h = None /\
  lua_consumer_close [h] w1 = (Ret [LBoolean false], w1) /\
  lua_consumer_poll [h] w1 = (Raise (Error_msg fatal_consumer_error), w1).
Proof.
  intros w h w1. split; [reflexivity|].
  destruct (consumer_gc_clears w 0 0 consumer0 [] eq_refl eq_refl)
    as (_ & Hcleared & Hclose & _ & Hpoll & _).
  exact (conj Hcleared (conj Hclose Hpoll)).
Defined.

(** The facade of [created], closed. *)
Lemma close_tears_down_in_order_witness :
  let w := created agreeable [] in
  let r := Consumer_close 0 w in
  fst r = Ret [LNil] /\
  sched (snd r)
  = sched w ++ [Fiber_cancel 2; Fiber_cancel 1; Channel_close 0] /\
  calls (snd r)
  = calls w ++ [Queue_destroy 6; Kafka_consumer_close 3; Queue_destroy 5] /\
  consumer_handle (snd r) (LUserdata consumer_label 0) = None.
Proof.
  intros w r.
  destruct (close_tears_down_in_order w 0 facade0 consumer0 1 2 3 5 6
              eq_refl eq_refl eq_refl eq_refl eq_refl eq_refl eq_refl eq_refl)
    as (Hret & Hsched & Hcalls & Hfreed & _).
  exact (conj Hret (conj Hsched
           (conj (eq_trans Hcalls (f_equal (app (calls w)) (app_nil_r _)))
                 Hfreed))).
Defined.

(** The closed facade of [created]. *)
Lemma closed_facade_raises_witness :
  let w := created agreeable [] in
  let w1 := snd (Consumer_close 0 w) in
  let e := Index_error "_consumer" LNil in
  Consumer_subscribe 0 (LTable []) w1 = (Raise e, w1) /\
  Consumer_store_offset 0 LNil w1 = (Raise e, w1) /\
  Consumer_output 0 w1 = (Ret [LChannel 0], w1).
Proof.
  intros w w1 e.
  assert (Hclosed : Consumer_close 0 w = (Ret [LNil], w1))
    by (vm_compute; reflexivity).
  destruct (closed_facade_raises w w1 0 [LNil] (LTable []) LNil Hclosed)
    as (Hsub & Hstore & _ & _ & _).
  refine (conj Hsub (conj Hstore _)). vm_compute. reflexivity.
Defined.

(** A broker list and one option, all accepted. *)
Lemma create_consumer_succeeds_witness :
  let r := lua_create_consumer [conf_group] (start agreeable []) in
  fst r = Ret [LUserdata consumer_label 0] /\
  consumer_handle (snd r) (LUserdata consumer_label 0)
  = Some {| rd_config := Some 0%nat; rd_consumer := Some 4%nat;
            topics := None; rd_event_queue := Some 6%nat;
            rd_msg_queue := Some 7%nat |} /\
  calls (snd r)
  = [Conf_new 0; Topic_conf_new 1; Conf_set_default_topic_conf 0 1;
     Conf_set 0 "group.id" "g"; Kafka_new 0 (Some 4%nat);
     Brokers_add 4 "localhost:9092"; Queue_get_main 4 6;
     Queue_get_consumer 4 7].
Proof.
  intros r.
  refine (create_consumer_succeeds (start agreeable [])
            (table_entries conf_group) "localhost:9092"
            [("group.id", "g")%string]
            eq_refl (or_introl eq_refl) (fun _ _ _ => eq_refl) eq_refl _).
  vm_compute. discriminate.
Defined.

(** The second option is unknown to the client. *)
Lemma create_consumer_option_rejected_witness :
  let w := start picky [] in
  let r := lua_create_consumer [conf_unknown_option] w in
  fst r = Ret [LNil; LString "No such configuration property"] /\
  calls (snd r)
  = [Conf_new 0; Topic_conf_new 1; Conf_set_default_topic_conf 0 1;
     Conf_set 0 "group.id" "g"; Conf_set 0 "no.such" "1"] /\
  consumers (snd r) = [] /\ consumer_boxes (snd r) = [].
Proof.
  intros w r.
  refine (create_consumer_option_rejected w (table_entries conf_unknown_option)
            "localhost:9092" [("group.id", "g")%string] "no.such" "1"
            "No such configuration property" []
            eq_refl eq_refl _ eq_refl).
  intros n v [E | []]. injection E as <- <-. reflexivity.
Defined.

(** The client cannot be created. *)
Lemma create_consumer_client_fails_witness :
  let w := start unavailable [] in
  let r := lua_create_consumer [conf_group] w in
  fst r = Ret [LNil; LString "Failed to create thread"] /\
  calls (snd r)
  = [Conf_new 0; Topic_conf_new 1; Conf_set_default_topic_conf 0 1;
     Conf_set 0 "group.id" "g"; Kafka_new 0 None] /\
  consumers (snd r) = [] /\ consumer_boxes (snd r) = [].
Proof.
  intros w r.
  exact (create_consumer_client_fails w (table_entries conf_group)
           "localhost:9092" "Failed to create thread"
           [("group.id", "g")%string]
           eq_refl (or_introl eq_refl) (fun _ _ _ => eq_refl) eq_refl).
Defined.

(** No broker of the list is taken. *)
Lemma create_consumer_no_brokers_witness :
  let w := start brokerless [] in
  let r := lua_create_consumer [conf_localhost] w in
  fst r = Ret [LNil; LString "No valid brokers specified"] /\
  calls (snd r)
  = [Conf_new 0; Topic_conf_new 1; Conf_set_default_topic_conf 0 1;
     Kafka_new 0 (Some 3%nat); Brokers_add 3 "localhost:9092"] /\
  consumers (snd r) = [] /\ consumer_boxes (snd r) = [].
Proof.
  intros w r.
  exact (create_consumer_no_brokers w (table_entries conf_localhost)
           "localhost:9092" []
           eq_refl (or_intror (conj eq_refl eq_refl))
           (fun _ _ H => match H with end) eq_refl eq_refl).
Defined.

(** The first facade of a state. *)
Lemma Consumer_create_spawns_witness :
  let w := start agreeable [] in
  let r := Consumer_create conf_localhost w in
  fst r = Ret [LConsumer 0; LNil] /\
  sched (snd r)
  = [Fiber_channel 10000 0; Fiber_create (Fn_poll 0) 1;
     Fiber_create (Fn_poll_msg 0) 2] /\
  facades (snd r) = [facade0] /\
  Consumer_output 0 (snd r) = (Ret [LChannel 0], snd r).
Proof.
  intros w r.
  assert (Hnative : lua_create_consumer [conf_localhost] w
                    = (Ret [LUserdata consumer_label 0],
                       snd (lua_create_consumer [conf_localhost] w)))
    by (vm_compute; reflexivity).
  destruct (Consumer_create_spawns w _ conf_localhost _ eq_refl Hnative)
    as (Hret & Hsched & Hfacades & _ & Hout).
  exact (conj Hret (conj Hsched (conj Hfacades Hout))).
Defined.

(** A subscription that is refused: the error text, and the topic is on
    the list all the same. *)
Lemma subscribe_error_keeps_topics_witness :
  let w := created refusing [] in
  let r := Consumer_subscribe 0
             (LTable [(LNumber (lua_int2number 1), LString "t1")]) w in
  fst r = Ret [LString "Local: Invalid argument or configuration"] /\
  consumer_handle (snd r) (LUserdata consumer_label 0)
  = Some (with_topics consumer0 [("t1"%string, -1)]) /\
  calls (snd r)
  = calls w ++ [Topic_partition_list_new 8; Topic_partition_list_add "t1" (-1);
                Subscribe 3 [("t1"%string, -1)]].
Proof.
  intros w r.
  refine (subscribe_error_keeps_topics w 0 facade0 consumer0 3
            [(LNumber (lua_int2number 1), "t1"%string)]
            eq_refl eq_refl eq_refl _).
  reflexivity.
Defined.
